(** * github-search-tool: pagination loop and record exporters

    A shallow embedding of [src/github-search-tool.py].

    - [Py]     : the Python values the program handles (decoded JSON,
                 dictionaries in insertion order, truthiness, [str], slices).
    - [Fetch]  : [fetch_results], the pagination loop, run against an
                 arbitrary behaviour of [session.get]; the calls to
                 [session.get] and to [sleep] are emitted as a log.
    - [Exporter] : [translate_text], [save_to_json], [save_to_csv] and
                 [save_to_xml], run against arbitrary behaviours of
                 [langdetect.detect] and of the translation service.
    - [Search], [Display], [Main] : [search_github], [display_results]
                 and [main].
    - [Transport] : [session.get] through the adapter that
                 [search_github] mounts, with its retries.

    The exporters are embedded up to the values they hand to
    [json.dump], [csv.DictWriter] and [ElementTree.write]: opening the
    file and the text written are not embedded, nor are floating point
    numbers in decoded JSON. *)

From Stdlib Require Import ZArith List Bool Lia.
From Stdlib Require String DecimalString.
Import ListNotations String.StringSyntax.

Set Warnings "-register-all,-notation-for-abbreviation".
Notation string := String.string.
Local Open Scope string_scope.
Local Open Scope list_scope.
Local Open Scope Z_scope.

(* ================================================================== *)
(** ** Python values *)
(* ================================================================== *)

Module Py.

(** Values that are neither [dict] nor [list]. *)
Inductive scalar : Type :=
| SNone
| SBool (b : bool)
| SInt (n : Z)
| SStr (s : string).

(** A decoded JSON document.  A [dict] keeps its items in insertion
    order, as [repo.items()] yields them. *)
Inductive json : Type :=
| JScalar (v : scalar)
| JList (l : list json)
| JDict (d : list (string * json)).

Definition JStr (s : string) : json := JScalar (SStr s).
Definition JNone : json := JScalar SNone.

(** A repository record: one element of the [items] array. *)
Definition record : Type := list (string * json).

(** [bool(value)] *)
Definition truthy (v : json) : bool :=
  match v with
  | JScalar SNone => false
  | JScalar (SBool b) => b
  | JScalar (SInt n) => negb (n =? 0)
  | JScalar (SStr s) => negb (String.eqb s String.EmptyString)
  | JList l => match l with [] => false | _ :: _ => true end
  | JDict d => match d with [] => false | _ :: _ => true end
  end.

(** [str(value)] on a value that is neither [dict] nor [list]. *)
Definition py_str (v : scalar) : string :=
  match v with
  | SNone => "None"
  | SBool true => "True"
  | SBool false => "False"
  | SInt n => DecimalString.NilZero.string_of_int (Z.to_int n)
  | SStr s => s
  end.

(** [d.get(key)]: [None] of the option type stands for Python's [None]
    default, which is falsy like a missing key. *)
Fixpoint dict_get (d : list (string * json)) (key : string) : option json :=
  match d with
  | [] => None
  | (k, v) :: rest => if String.eqb k key then Some v else dict_get rest key
  end.

(** [d.get(key, default)] *)
Definition dict_get_default (d : list (string * json)) (key : string)
           (default : json) : json :=
  match dict_get d key with
  | Some v => v
  | None => default
  end.

(** [key in d] *)
Definition dict_mem (d : list (string * json)) (key : string) : bool :=
  match dict_get d key with
  | Some _ => true
  | None => false
  end.

(** [d[key] = value]: an existing key keeps its position, a new key goes
    last. *)
Fixpoint dict_set (d : list (string * json)) (key : string) (value : json)
  : list (string * json) :=
  match d with
  | [] => [(key, value)]
  | (k, v) :: rest =>
      if String.eqb k key then (k, value) :: rest
      else (k, v) :: dict_set rest key value
  end.

(** [bool(d.get(key))] *)
Definition get_truthy (d : list (string * json)) (key : string) : bool :=
  match dict_get d key with
  | Some v => truthy v
  | None => false
  end.

(** The keys of a Python [dict] are pairwise distinct. *)
Definition wf_dict (d : list (string * json)) : Prop := NoDup (map fst d).

(** [l[:n]] for an arbitrary integer [n]: a negative bound counts from
    the end of the list. *)
Definition slice_to {A : Type} (n : Z) (l : list A) : list A :=
  if 0 <=? n then firstn (Z.to_nat n) l
  else firstn (Z.to_nat (Z.of_nat (length l) + n)) l.

End Py.

(* ================================================================== *)
(** ** The pagination loop *)
(* ================================================================== *)

Module Fetch.

Section Loop.

(** The elements of a page are opaque to the loop. *)
Context {item : Type}.

(** What the [try] block of one iteration observes of the request
    [session.get(base_url, headers=headers, params=params)]. *)
Inductive outcome : Type :=
| Items (items : list item)
    (** [raise_for_status] passes; [response.json().get('items', [])] *)
| HTTPError (status_code : Z)
    (** [raise_for_status] raises [requests.exceptions.HTTPError] *)
| Failure.
    (** any other [Exception] of the [try] block *)

(** The observable actions of the loop, in the order they happen. *)
Inductive event : Type :=
| Get (page : Z) (o : outcome)   (** [session.get] with [params['page']] *)
| Sleep (seconds : Z).           (** [sleep(seconds)] *)

(** The remote end: the answer to the [n]-th request of the run
    (counted from 0) when it asks for page [page]. *)
Definition fetcher : Type := nat -> Z -> outcome.

(** The local variables of [fetch_results], with the number of
    requests issued so far. *)
Record state : Type := mkState {
  results : list item;
  page : Z;
  calls : nat
}.

Variable session : fetcher.
Variable num_results : Z.

(** [len(results) < num_results] *)
Definition guard (st : state) : bool :=
  Z.of_nat (length (results st)) <? num_results.

(** One run of the body of the [while]: the events it emits and the
    state of the next iteration, or [None] after a [break]. *)
Definition body (st : state) : list event * option state :=
  let o := session (calls st) (page st) in
  match o with
  | Items [] => ([Get (page st) o], None)
  | Items ((_ :: _) as items) =>
      ([Get (page st) o; Sleep 1],
       Some (mkState (results st ++ items) (page st + 1) (S (calls st))))
  | HTTPError status_code =>
      if status_code =? 403
      then ([Get (page st) o; Sleep 60],
            Some (mkState (results st) (page st) (S (calls st))))
      else ([Get (page st) o], None)
  | Failure => ([Get (page st) o], None)
  end.

(** The [while] loop: the value of [results] when it is left and the
    events emitted on the way; [None] when [fuel] iterations do not
    suffice to leave it. *)
Fixpoint loop (fuel : nat) (st : state) : option (list item * list event) :=
  if guard st then
    match fuel with
    | O => None
    | S fuel' =>
        match body st with
        | (evs, None) => Some (results st, evs)
        | (evs, Some st') =>
            match loop fuel' st' with
            | Some (r, log) => Some (r, evs ++ log)
            | None => None
            end
        end
    end
  else Some (results st, []).

(** [results = []; page = 1] *)
Definition init : state := mkState [] 1 0%nat.

(** [fetch_results(session, base_url, params, headers, num_results)]:
    the returned list and the log of the run. *)
Definition fetch_results (fuel : nat) : option (list item * list event) :=
  match loop fuel init with
  | Some (r, log) => Some (Py.slice_to num_results r, log)
  | None => None
  end.

(** [reaches st0 log st]: starting the loop in [st0], the iterations
    that emit [log] lead to the loop test in state [st]. *)
Inductive reaches (st0 : state) : list event -> state -> Prop :=
| reaches_here : reaches st0 [] st0
| reaches_next log st evs st' :
    reaches st0 log st ->
    guard st = true ->
    body st = (evs, Some st') ->
    reaches st0 (log ++ evs) st'.

(** The item lists of the pages a log fetched successfully. *)
Fixpoint fetched_pages (log : list event) : list (list item) :=
  match log with
  | [] => []
  | Get _ (Items items) :: rest => items :: fetched_pages rest
  | _ :: rest => fetched_pages rest
  end.

(** A terminal failure: an HTTP error other than 403, or any other
    exception. *)
Definition terminal (o : outcome) : bool :=
  match o with
  | Items _ => false
  | HTTPError status_code => negb (status_code =? 403)
  | Failure => true
  end.

(** The shape of the log of a run that left the loop: a sequence of
    rounds, each a request followed by what the body did next. *)
Inductive paced : list event -> Prop :=
| paced_target_met : paced []
| paced_exhausted p : paced [Get p (Items [])]
| paced_terminal p o : terminal o = true -> paced [Get p o]
| paced_page p x items rest :
    paced rest ->
    paced (Get p (Items (x :: items)) :: Sleep 1 :: rest)
| paced_cooldown p o rest :
    paced (Get p o :: rest) ->
    paced (Get p (HTTPError 403) :: Sleep 60 :: Get p o :: rest).

(** [k] rounds of rate-limit cooldown on page [p]. *)
Fixpoint cooldowns (p : Z) (k : nat) : list event :=
  match k with
  | O => []
  | S k' => Get p (HTTPError 403) :: Sleep 60 :: cooldowns p k'
  end.

(** The behaviours of the remote end that answer every page, asked
    often enough, with something else than status 403. *)
Definition eventually_answers : Prop :=
  forall (p : Z) (n : nat), exists k : nat,
    session (n + k)%nat p <> HTTPError 403.

End Loop.

Arguments outcome : clear implicits.
Arguments event : clear implicits.
Arguments fetcher : clear implicits.
Arguments state : clear implicits.
Arguments paced : clear implicits.

End Fetch.

(* ================================================================== *)
(** ** The exporters *)
(* ================================================================== *)

Module Exporter.

Import Py.

(** The calls an export makes to the outside: [langdetect.detect(text)]
    and the POST of [translate_text] with [q = text]. *)
Inductive call : Type :=
| Detect (text : string)
| Translate (text : json).

(** A computation that may let an exception escape ([None]) and
    otherwise yields a value and the calls it made, in order. *)
Definition M (A : Type) : Type := option (A * list call).

Definition ret {A : Type} (a : A) : M A := Some (a, []).

Definition raise {A : Type} : M A := None.

Definition emit (c : call) : M unit := Some (tt, [c]).

Definition bind {A B : Type} (m : M A) (k : A -> M B) : M B :=
  match m with
  | None => None
  | Some (a, calls) =>
      match k a with
      | None => None
      | Some (b, calls') => Some (b, calls ++ calls')
      end
  end.

Notation "x <- m ;; k" := (bind m (fun x => k))
  (at level 61, m at next level, right associativity).

(** [for x in l: ...], collecting what each round yields. *)
Fixpoint for_each {A B : Type} (f : A -> M B) (l : list A) : M (list B) :=
  match l with
  | [] => ret []
  | x :: rest =>
      y <- f x ;;
      ys <- for_each f rest ;;
      ret (y :: ys)
  end.

(** [d[key]], a [KeyError] when the key is missing. *)
Definition dict_item (d : list (string * json)) (key : string) : M json :=
  match dict_get d key with
  | Some v => ret v
  | None => raise
  end.

(** [x in l] for strings. *)
Definition py_in (x : string) (l : list string) : bool :=
  existsb (String.eqb x) l.

(** An [xml.etree.ElementTree.Element]: tag, [.text] and sub-elements.
    [.text] holds whatever value the program assigns to it. *)
Inductive element : Type :=
| Element (tag : string) (text : option json) (children : list element).

Definition tag_of (e : element) : string :=
  match e with Element tag _ _ => tag end.

Definition text_of (e : element) : option json :=
  match e with Element _ text _ => text end.

Definition children_of (e : element) : list element :=
  match e with Element _ _ children => children end.

(** What [save_to_csv] hands to the [csv.DictWriter]. *)
Record csv_file : Type := mkCsv {
  csv_delimiter : string;
  csv_header : list string;
  csv_rows : list (list json)
}.

Definition fieldnames : list string :=
  ["name"; "full_name"; "html_url"; "description"; "description_translated";
   "stargazers_count"; "watchers_count"; "forks_count";
   "language"; "license"; "updated_at"].

(** The cell of a written row under the column [field]. *)
Definition csv_cell (cells : list json) (field : string) : option json :=
  dict_get (combine fieldnames cells) field.

Section Capabilities.

(** Whether [from langdetect import detect] succeeded. *)
Variable TRANSLATION_AVAILABLE : bool.

(** [langdetect.detect] on a [str]; [None] when it raises (a text
    without features).  On a value that is not a [str] it raises
    too, see [detect_language]. *)
Variable detect : string -> option string.

(** The translation service behind [translate_text]: the POST with
    [q = text] and the ['translatedText'] of the decoded answer;
    [None] for any exception on the way. *)
Variable libretranslate : json -> option json.

(** [translate_text(text)] *)
Definition translate_text (text : json) : M json :=
  if negb TRANSLATION_AVAILABLE then ret text
  else
    _ <- emit (Translate text) ;;
    match libretranslate text with
    | Some translated => ret translated
    | None => ret text
    end.

(** [detect(text) if TRANSLATION_AVAILABLE else 'en'] *)
Definition detect_language (text : json) : M string :=
  if TRANSLATION_AVAILABLE then
    match text with
    | JScalar (SStr s) =>
        _ <- emit (Detect s) ;;
        match detect s with
        | Some lang => ret lang
        | None => raise
        end
    | _ => raise
    end
  else ret "en".

(** The body of the [for] loop of [save_to_json]: the record after
    the round. *)
Definition json_repo (translate : bool) (repo : record) : M record :=
  if translate && get_truthy repo "description" then
    text <- dict_item repo "description" ;;
    lang <- detect_language text ;;
    if negb (py_in lang ["en"; "ar"]) then
      text' <- dict_item repo "description" ;;
      translated <- translate_text text' ;;
      ret (dict_set repo "description_translated" translated)
    else ret (dict_set repo "description_translated" (JStr ""))
  else ret repo.

(** [save_to_json(data, filename, translate)], up to [open]: the list
    that [json.dump] is handed when the file can be opened.  [None]: the
    loop raised. *)
Definition save_to_json (data : list record) (translate : bool)
  : M (list record) :=
  for_each (json_repo translate) data.

(** The row built for one record by the loop of [save_to_csv]. *)
Definition csv_row (translate : bool) (repo : record)
  : M (list (string * json)) :=
  let row :=
    map (fun field => (field, dict_get_default repo field (JStr "")))
        fieldnames in
  row1 <- (if dict_mem repo "license" && get_truthy repo "license" then
             license <- dict_item repo "license" ;;
             match license with
             | JDict d =>
                 ret (dict_set row "license"
                               (dict_get_default d "name" (JStr "")))
             | _ => raise
             end
           else ret row) ;;
  if translate && get_truthy repo "description" then
    text <- dict_item repo "description" ;;
    lang <- detect_language text ;;
    if negb (py_in lang ["en"; "ar"]) then
      text' <- dict_item repo "description" ;;
      translated <- translate_text text' ;;
      ret (dict_set row1 "description_translated" translated)
    else ret (dict_set row1 "description_translated" (JStr ""))
  else ret row1.

(** [writer.writerow(row)]: the cells in the order of [fieldnames],
    [restval = ''] for a key the row lacks. *)
Definition writerow (row : list (string * json)) : list json :=
  map (fun field => dict_get_default row field (JStr "")) fieldnames.

(** [save_to_csv(data, filename, translate, delimiter)], for a file
    that can be opened and a delimiter the writer accepts: the header
    and the rows handed to the writer, [None] as value when the function
    returns before opening the file.  [None] as computation: building a
    row raised. *)
Definition save_to_csv (data : list record) (translate : bool)
           (delimiter : string) : M (option csv_file) :=
  match data with
  | [] => ret None
  | _ :: _ =>
      rows <- for_each (fun repo =>
                          row <- csv_row translate repo ;;
                          ret (writerow row)) data ;;
      ret (Some (mkCsv delimiter fieldnames rows))
  end.

(** The sub-elements of [repo_element] added while the inner loop of
    [save_to_xml] visits the item [(key, value)] of [repo]. *)
Definition xml_item (translate : bool) (repo : record)
           (kv : string * json) : M (list element) :=
  let (key, value) := kv in
  if py_in key ["owner"; "license"] then ret []
  else
    match value with
    | JList _ => ret []
    | JDict _ => ret []
    | JScalar v =>
        if String.eqb key "description" && translate
           && get_truthy repo "description" then
          text <- dict_item repo "description" ;;
          lang <- detect_language text ;;
          if negb (py_in lang ["en"; "ar"]) then
            text' <- dict_item repo "description" ;;
            translated_text <- translate_text text' ;;
            ret [Element "description" (Some value) [];
                 Element "description_translated" (Some translated_text) []]
          else ret [Element key (Some (JStr (py_str v))) []]
        else ret [Element key (Some (JStr (py_str v))) []]
    end.

(** The [repository] element of one record. *)
Definition xml_repository (translate : bool) (repo : record) : M element :=
  fields <- for_each (xml_item translate repo) repo ;;
  ret (Element "repository" None (concat fields)).

(** [save_to_xml(data, filename, translate)], up to [tree.write]:
    the tree that [ElementTree.write] is handed.  [None]: building the
    tree raised. *)
Definition save_to_xml (data : list record) (translate : bool) : M element :=
  repositories <- for_each (xml_repository translate) data ;;
  ret (Element "repositories" None repositories).

End Capabilities.

End Exporter.

(* ================================================================== *)
(** ** Concrete runs *)
(* ================================================================== *)

Module Scenarios.

Import Py Fetch.

(** Two pages of three items, then an empty page. *)
Definition two_pages_then_empty : fetcher Z :=
  fun n _ =>
    match n with
    | 0%nat => Items [1; 2; 3]
    | 1%nat => Items [4; 5; 6]
    | _ => Items []
    end.

(** As above, with one 403 in front of the second page: a session that
    lets the status through as an [HTTPError], as [fetch_results]
    accepts any session; the one that [search_github] builds does not
    (see [Transport]). *)
Definition limited_once : fetcher Z :=
  fun n _ =>
    match n with
    | 0%nat => Items [1; 2; 3]
    | 1%nat => HTTPError 403
    | 2%nat => Items [4; 5; 6]
    | _ => Items []
    end.

(** One page, then status 500, on a session that lets the status
    through as an [HTTPError]. *)
Definition server_error : fetcher Z :=
  fun n _ =>
    match n with
    | 0%nat => Items [1; 2; 3]
    | _ => HTTPError 500
    end.

(** The state after the first page of the runs above. *)
Definition after_first_page : state Z := mkState [1; 2; 3] 2 1.

Definition first_page_log : list (event Z) :=
  [Get 1 (Items [1; 2; 3]); Sleep 1].

(** The state after both pages of [two_pages_then_empty]. *)
Definition after_second_page : state Z := mkState [1; 2; 3; 4; 5; 6] 3 2.

Definition second_page_log : list (event Z) :=
  [Get 1 (Items [1; 2; 3]); Sleep 1; Get 2 (Items [4; 5; 6]); Sleep 1].

(** The claim that no politeness delay follows the last request of a
    run, in the words of the specification. *)
Definition no_delay_after_final_page (log : list (event Z)) : Prop :=
  forall pre p o post,
    log = pre ++ Get p o :: post ->
    (forall p' o', ~ In (Get p' o') post) ->
    ~ In (Sleep 1) post.

(** A detector that knows one French sentence. *)
Definition detect_french (s : string) : option string :=
  if String.eqb s "Bonjour le monde" then Some "fr" else Some "en".

(** A translation service with one answer. *)
Definition to_english (text : json) : option json := Some (JStr "Hello world").

Definition french_repo : record :=
  [("name", JStr "bonjour");
   ("description", JStr "Bonjour le monde");
   ("license", JDict [("key", JStr "mit"); ("name", JStr "MIT License")]);
   ("owner", JDict [("login", JStr "alice")]);
   ("private", JScalar (SBool false));
   ("homepage", JNone);
   ("stargazers_count", JScalar (SInt 42))].

Definition english_repo : record :=
  [("name", JStr "hello");
   ("description", JStr "hello world");
   ("license", JNone)].

(** A record whose license is the empty object. *)
Definition bare_repo : record := [("name", JStr "bare"); ("license", JDict [])].

(** The delimiter of the TSV export. *)
Definition tab : string :=
  String.String (Ascii.ascii_of_nat 9) String.EmptyString.

End Scenarios.

(* ================================================================== *)
(** ** The request, the preview and the command line *)
(* ================================================================== *)

Module Search.

Import Py.

(** [Retry(total=..., backoff_factor=..., status_forcelist=[...])] *)
Record retry : Type := mkRetry {
  total : Z;
  backoff_factor : Z;
  status_forcelist : list Z
}.

(** What [search_github] returns: the adapters mounted on the session
    (URL prefix and retry policy), [base_url], [params] and [headers]. *)
Record request : Type := mkRequest {
  mounted : list (string * retry);
  base_url : string;
  params : list (string * json);
  headers : list (string * string)
}.

(** [bool(s)] for an argument that is a [str] or [None]. *)
Definition given (s : option string) : bool :=
  match s with
  | Some text => negb (String.eqb text String.EmptyString)
  | None => false
  end.

(** The text of an argument that is a [str]. *)
Definition text_of_arg (s : option string) : string :=
  match s with
  | Some text => text
  | None => "None"
  end.

(** [search_github(query, sort, order, language, min_stars, per_page,
    token)].  The two [params['q'] += ...] update the first key of the
    dictionary in place. *)
Definition search_github (query sort order : string)
           (language : option string) (min_stars per_page : Z)
           (token : option string) : request :=
  let q := query in
  let q := if given language
           then String.append q
                  (String.append " language:" (text_of_arg language))
           else q in
  let q := if 0 <? min_stars
           then String.append q
                  (String.append " stars:>=" (py_str (SInt min_stars)))
           else q in
  let params :=
    [("q", JStr q); ("sort", JStr sort); ("order", JStr order);
     ("per_page", JScalar (SInt per_page))] in
  let headers :=
    [("Accept", "application/vnd.github.v3+json");
     ("User-Agent", "GitHub-Scraper-App")] in
  let headers :=
    if given token
    then headers
           ++ [("Authorization", String.append "token " (text_of_arg token))]
    else headers in
  mkRequest [("https://", mkRetry 5 1 [403; 500; 502; 503; 504])]
            "https://api.github.com/search/repositories"
            params headers.

End Search.

Module Display.

Import Py.

(** A piece of an f-string: literal text, or a replacement field with
    the value it formats. *)
Inductive piece : Type :=
| Text (s : string)
| Value (v : json).

(** The argument of one [print]. *)
Definition line : Type := list piece.

(** How [display_results] ends: it returns, or a subscript raises. *)
Inductive ending : Type :=
| Returned
| KeyError (key : string).

Definition newline : string :=
  String.String (Ascii.ascii_of_nat 10) String.EmptyString.

(** The four [print] of one round of the loop, as far as they get. *)
Definition entry (idx : Z) (repo : record) : list line * ending :=
  match dict_get repo "name" with
  | None => ([], KeyError "name")
  | Some name =>
      match dict_get repo "stargazers_count" with
      | None => ([], KeyError "stargazers_count")
      | Some stars =>
          let heading :=
            [Text newline; Value (JScalar (SInt idx)); Text ". "; Value name;
             Text " (⭐ "; Value stars; Text ")"] in
          let description :=
            [Text "  ";
             Value (dict_get_default repo "description"
                                     (JStr "No description"))] in
          let language :=
            [Text "  Language: ";
             Value (dict_get_default repo "language" (JStr "Unknown"))] in
          match dict_get repo "html_url" with
          | None => ([heading; description; language], KeyError "html_url")
          | Some url =>
              ([heading; description; language; [Text "  URL: "; Value url]],
               Returned)
          end
      end
  end.

(** The loop over [enumerate(..., idx)]. *)
Fixpoint display_from (idx : Z) (repos : list record) : list line * ending :=
  match repos with
  | [] => ([], Returned)
  | repo :: rest =>
      match entry idx repo with
      | (printed, Returned) =>
          let (more, e) := display_from (idx + 1) rest in
          (printed ++ more, e)
      | (printed, KeyError key) => (printed, KeyError key)
      end
  end.

(** A record with the three keys the preview subscripts. *)
Definition complete (repo : record) : Prop :=
  dict_get repo "name" <> None /\
  dict_get repo "stargazers_count" <> None /\
  dict_get repo "html_url" <> None.

(** [display_results(repos, num_to_display)] *)
Definition display_results (repos : list record) (num_to_display : Z)
  : list line * ending :=
  display_from 1 (slice_to num_to_display repos).

End Display.

Module Main.

Import Py Fetch Exporter Search Display.

(** The parsed command line. *)
Record args : Type := mkArgs {
  query : option string;
  token : option string;
  num_results : Z;
  sort : string;
  order : string;
  language : option string;
  min_stars : Z;
  translate : bool;
  display_num : Z
}.

(** The characters [' '] and ['_']. *)
Definition space : Ascii.ascii := Ascii.ascii_of_nat 32.
Definition underscore : Ascii.ascii := Ascii.ascii_of_nat 95.

(** [s.replace(' ', '_')] *)
Fixpoint replace_spaces (s : string) : string :=
  match s with
  | String.EmptyString => String.EmptyString
  | String.String c rest =>
      String.String (if Ascii.eqb c space then underscore else c)
                    (replace_spaces rest)
  end.

(** [file_format] and [file_extension] for the answer to the format
    prompt. *)
Definition choose_format (format_choice : string) : string * string :=
  if String.eqb format_choice "2" then ("csv", "csv")
  else if String.eqb format_choice "3" then ("tsv", "tsv")
  else if String.eqb format_choice "4" then ("xml", "xml")
  else ("json", "json").

(** [filename] for the answer to the file name prompt. *)
Definition output_filename (filename_input the_query file_extension : string)
  : string :=
  let default_filename := String.append "github_" (replace_spaces the_query) in
  let filename_base :=
    if negb (String.eqb filename_input String.EmptyString)
    then filename_input else default_filename in
  String.append filename_base (String.append "." file_extension).

(** What a [save_to_...] function handed to its writer; for
    [save_to_csv], [None] when it returned without opening the file. *)
Inductive written : Type :=
| JsonFile (data : list record)
| CsvFile (file : option csv_file)
| XmlFile (root : element).

(** How [main] ends. *)
Inductive finish : Type :=
| QueryRequired
| NoRepositories
| PreviewFailed (shown : list line) (key : string)
| ExportFailed (shown : list line) (filename : string)
| Saved (shown : list line) (filename : string) (file : option written)
        (calls : list call).

Section Run.

Variable TRANSLATION_AVAILABLE : bool.
Variable detect : string -> option string.
Variable libretranslate : json -> option json.

(** The remote end, for the request that [search_github] built. *)
Variable remote : request -> fetcher record.

(** The [if]/[elif] chain at the end of [main]. *)
Definition save (file_format : string) (results : list record)
           (translate : bool) : M (option written) :=
  if String.eqb file_format "json" then
    data <- save_to_json TRANSLATION_AVAILABLE detect libretranslate
                         results translate ;;
    ret (Some (JsonFile data))
  else if String.eqb file_format "csv" then
    file <- save_to_csv TRANSLATION_AVAILABLE detect libretranslate
                        results translate "," ;;
    ret (Some (CsvFile file))
  else if String.eqb file_format "tsv" then
    file <- save_to_csv TRANSLATION_AVAILABLE detect libretranslate
                        results translate
                        (String.String (Ascii.ascii_of_nat 9)
                                       String.EmptyString) ;;
    ret (Some (CsvFile file))
  else if String.eqb file_format "xml" then
    root <- save_to_xml TRANSLATION_AVAILABLE detect libretranslate
                        results translate ;;
    ret (Some (XmlFile root))
  else ret None.

(** [main()], for the parsed command line and the stripped answers to
    the three prompts; with the log of the pagination.  [None] when
    [fuel] rounds do not suffice for [fetch_results]. *)
Definition main (a : args) (query_answer format_choice filename_input : string)
           (fuel : nat) : option (finish * list (event record)) :=
  let prompted := negb (given (query a)) in
  let the_query := if prompted then Some query_answer else query a in
  if prompted && negb (given the_query) then Some (QueryRequired, [])
  else
    let the_query := text_of_arg the_query in
    let (file_format, file_extension) := choose_format format_choice in
    let filename := output_filename filename_input the_query file_extension in
    let request :=
      search_github the_query (sort a) (order a) (language a) (min_stars a)
                    30 (token a) in
    match fetch_results (remote request) (num_results a) fuel with
    | None => None
    | Some (results, log) =>
        match results with
        | [] => Some (NoRepositories, log)
        | _ :: _ =>
            match display_results results (display_num a) with
            | (shown, KeyError key) => Some (PreviewFailed shown key, log)
            | (shown, Returned) =>
                match save file_format results (translate a) with
                | None => Some (ExportFailed shown filename, log)
                | Some (file, calls) =>
                    Some (Saved shown filename file calls, log)
                end
            end
        end
    end.

End Run.

End Main.

(* ================================================================== *)
(** ** The session that [search_github] builds *)
(* ================================================================== *)

Module Transport.

Import Py Fetch Search.

Section Adapter.

Context {item : Type}.

(** What comes back on one attempt of a request: a response with its
    status and the [items] of its body, or nothing (the connection
    fails). *)
Inductive reply : Type :=
| Response (status_code : Z) (items : list item)
| NoResponse.

(** The server: what comes back on attempt [k] of the [n]-th
    [session.get] of the run, asking for [page]. *)
Definition server : Type := nat -> nat -> Z -> reply.

(** [response.raise_for_status()] and
    [response.json().get('items', [])] on the response that
    [session.get] returns. *)
Definition handed_over (status_code : Z) (items : list item) : outcome item :=
  if (400 <=? status_code) && (status_code <? 600)
  then HTTPError status_code
  else Items items.

(** One [session.get] through [HTTPAdapter(max_retries=retries)] (the
    adapter of requests over the [Retry] of urllib3; not code of the
    repository).  The request is sent again, as long as [left] retries
    remain, after an attempt without response and after a response
    whose status is in [status_forcelist].  When none remains, the
    former ends in a [ConnectionError] and the latter, [raise_on_status]
    being left at its default, in a [RetryError]: exceptions of
    requests that are not [HTTPError].  The waits between the attempts
    pass inside [session.get]. *)
Fixpoint attempts (retries : retry) (left : nat) (answers : nat -> reply)
         (k : nat) {struct left} : outcome item :=
  match answers k with
  | NoResponse =>
      match left with
      | O => Failure
      | S left' => attempts retries left' answers (S k)
      end
  | Response status_code items =>
      if existsb (Z.eqb status_code) (status_forcelist retries) then
        match left with
        | O => Failure
        | S left' => attempts retries left' answers (S k)
        end
      else handed_over status_code items
  end.

(** [session.get] through an adapter with [retries]. *)
Definition mounted_get (retries : retry) (srv : server) : fetcher item :=
  fun n page =>
    attempts retries (Z.to_nat (total retries)) (fun k => srv n k page) 0.

(** [session.get(base_url, ...)] on the session of a request: through
    the adapter mounted for a prefix of the URL, else through the
    adapter a session has from the start, which does not retry. *)
Definition session_get (req : request) (srv : server) : fetcher item :=
  match find (fun m => String.prefix (fst m) (base_url req)) (mounted req) with
  | Some (_, retries) => mounted_get retries srv
  | None => mounted_get (mkRetry 0 0 []) srv
  end.

End Adapter.

Arguments reply : clear implicits.
Arguments server : clear implicits.

(** A server that answers every attempt with status 403. *)
Definition forbidden : server Z := fun _ _ _ => Response 403 [].

(** A server with a first page, and status 403 on every attempt for any
    other page. *)
Definition forbidden_after_first_page : server Z :=
  fun _ _ page =>
    if page =? 1 then Response 200 [1; 2; 3] else Response 403 [].

End Transport.

(* ================================================================== *)
(** ** More concrete runs *)
(* ================================================================== *)

Module Examples.

Import Py Fetch Exporter Search Display Main.

(** A remote end that never runs out: one item on every page. *)
Definition endless : fetcher Z := fun n _ => Items [Z.of_nat n].

(** The log of [Scenarios.limited_once] for a target of 50. *)
Definition limited_once_log : list (event Z) :=
  [Get 1 (Items [1; 2; 3]); Sleep 1; Get 2 (HTTPError 403); Sleep 60;
   Get 2 (Items [4; 5; 6]); Sleep 1; Get 3 (Items [])].

Definition hello_repo : record :=
  [("name", JStr "hello");
   ("html_url", JStr "https://github.com/a/hello");
   ("description", JStr "hello world");
   ("stargazers_count", JScalar (SInt 7));
   ("language", JNone);
   ("license", JNone)].

Definition bonjour_repo : record :=
  [("name", JStr "bonjour");
   ("html_url", JStr "https://github.com/b/bonjour");
   ("description", JStr "Bonjour le monde");
   ("stargazers_count", JScalar (SInt 3));
   ("license", JDict [("key", JStr "mit"); ("name", JStr "MIT License")])].

(** A record without [html_url]. *)
Definition no_url_repo : record :=
  [("name", JStr "nowhere"); ("stargazers_count", JScalar (SInt 0))].

(** A record whose license is a [str]. *)
Definition named_license_repo : record :=
  [("name", JStr "x"); ("license", JStr "MIT")].

(** A record whose description is a number. *)
Definition numbered_repo : record :=
  [("name", JStr "n"); ("description", JScalar (SInt 5))].

(** A remote end with one page of two records. *)
Definition one_page (r : request) : fetcher record :=
  fun n _ =>
    match n with
    | 0%nat => Items [bonjour_repo; hello_repo]
    | _ => Items []
    end.

(** [--query "machine learning" --num-results 2 --translate] *)
Definition command_line : args :=
  mkArgs (Some "machine learning") None 2 "stars" "desc" None 0 true 5.

End Examples.

(* ================================================================== *)
(** ** Counting in logs *)
(* ================================================================== *)

Module Tally.

Import Py Fetch.

Section Log.

Context {item : Type}.

(** The number of requests in a log. *)
Fixpoint requests (log : list (event item)) : nat :=
  match log with
  | [] => 0%nat
  | Get _ _ :: rest => S (requests rest)
  | Sleep _ :: rest => requests rest
  end.

(** The number of requests answered with a page that is not empty. *)
Fixpoint pages_fetched (log : list (event item)) : nat :=
  match log with
  | [] => 0%nat
  | Get _ (Items (_ :: _)) :: rest => S (pages_fetched rest)
  | _ :: rest => pages_fetched rest
  end.

(** The number of requests answered with status 403. *)
Fixpoint rate_limited (log : list (event item)) : nat :=
  match log with
  | [] => 0%nat
  | Get _ (HTTPError status_code) :: rest =>
      if status_code =? 403 then S (rate_limited rest) else rate_limited rest
  | _ :: rest => rate_limited rest
  end.

(** The time spent in [sleep]. *)
Fixpoint total_sleep (log : list (event item)) : Z :=
  match log with
  | [] => 0
  | Sleep seconds :: rest => seconds + total_sleep rest
  | Get _ _ :: rest => total_sleep rest
  end.

End Log.

End Tally.

(* ================================================================== *)
(** ** Properties of Python slices and dictionaries *)
(* ================================================================== *)

Section PyFacts.

Import Py.

Lemma slice_to_prefix {A : Type} (n : Z) (l : list A) :
  exists rest, l = slice_to n l ++ rest.
Proof.
  unfold slice_to.
  destruct (0 <=? n);
    [ exists (skipn (Z.to_nat n) l)
    | exists (skipn (Z.to_nat (Z.of_nat (length l) + n)) l) ];
    symmetry; apply firstn_skipn.
Qed.

Lemma slice_to_nonneg {A : Type} (n : Z) (l : list A) :
  0 <= n -> slice_to n l = firstn (Z.to_nat n) l.
Proof.
  intros Hn. unfold slice_to.
  destruct (Z.leb_spec 0 n); [reflexivity | lia].
Qed.

Lemma slice_to_length {A : Type} (n : Z) (l : list A) :
  0 <= n -> Z.of_nat (length (slice_to n l)) <= n.
Proof.
  intros Hn. rewrite slice_to_nonneg by assumption.
  pose proof (firstn_le_length (Z.to_nat n) l). lia.
Qed.

Lemma slice_to_all {A : Type} (n : Z) (l : list A) :
  Z.of_nat (length l) <= n -> slice_to n l = l.
Proof.
  intros Hn. rewrite slice_to_nonneg by lia.
  apply firstn_all2. lia.
Qed.

Lemma slice_to_app {A : Type} (n : Z) (l more : list A) :
  Z.of_nat (length l) <= n ->
  exists kept, slice_to n (l ++ more) = l ++ kept.
Proof.
  intros Hn. rewrite slice_to_nonneg by lia.
  rewrite firstn_app, firstn_all2 by lia. eauto.
Qed.

End PyFacts.

(* ================================================================== *)
(** ** The pagination loop: runs, logs and fuel *)
(* ================================================================== *)

Section LoopFacts.

Import Py Fetch.

Context {item : Type}.
Variable session : fetcher item.
Variable num_results : Z.

Local Notation guard := (guard num_results).
Local Notation body := (body session).
Local Notation loop := (loop session num_results).
Local Notation reaches := (reaches session num_results).
Local Notation fetch_results := (fetch_results session num_results).

Lemma fetched_pages_app (l1 l2 : list (event item)) :
  fetched_pages (l1 ++ l2) = fetched_pages l1 ++ fetched_pages l2.
Proof.
  induction l1 as [|e l1 IH]; simpl; [reflexivity|].
  destruct e as [p [items|c|]|s]; simpl; rewrite IH; reflexivity.
Qed.

(** The five ways through the body of the loop. *)
Lemma body_cases (st : state item) :
  let o := session (calls st) (page st) in
  (o = Items [] /\ body st = ([Get (page st) o], None)) \/
  (terminal o = true /\ body st = ([Get (page st) o], None)) \/
  (exists x items, o = Items (x :: items) /\
     body st = ([Get (page st) o; Sleep 1],
                Some (mkState (results st ++ x :: items)
                              (page st + 1) (S (calls st))))) \/
  (o = HTTPError 403 /\
     body st = ([Get (page st) o; Sleep 60],
                Some (mkState (results st) (page st) (S (calls st))))).
Proof.
  unfold Fetch.body. cbv zeta.
  destruct (session (calls st) (page st)) as [[|x items]|c|] eqn:Ho.
  - left. split; reflexivity.
  - right; right; left. exists x, items. split; reflexivity.
  - destruct (Z.eqb_spec c 403) as [->|Hc].
    + right; right; right. split; reflexivity.
    + right; left. split; [|reflexivity].
      simpl. apply Z.eqb_neq in Hc. rewrite Hc. reflexivity.
  - right; left. split; reflexivity.
Qed.

Lemma loop_unfold (fuel : nat) (st : state item) :
  guard st = true ->
  loop (S fuel) st =
    match body st with
    | (evs, None) => Some (results st, evs)
    | (evs, Some st') =>
        match loop fuel st' with
        | Some (r, log) => Some (r, evs ++ log)
        | None => None
        end
    end.
Proof. intros Hg. simpl. rewrite Hg. reflexivity. Qed.

Lemma loop_done (fuel : nat) (st : state item) :
  guard st = false -> loop fuel st = Some (results st, []).
Proof. intros Hg. destruct fuel; simpl; rewrite Hg; reflexivity. Qed.

Lemma loop_out_of_fuel (st : state item) :
  guard st = true -> loop 0 st = None.
Proof. intros Hg. simpl. rewrite Hg. reflexivity. Qed.

(** More fuel does not change the outcome of a run that ended. *)
Lemma loop_fuel_mono (fuel : nat) :
  forall (st : state item) x,
    loop fuel st = Some x -> loop (S fuel) st = Some x.
Proof.
  induction fuel as [|fuel IH]; intros st x H.
  - destruct (guard st) eqn:Hg.
    + rewrite loop_out_of_fuel in H by assumption. discriminate.
    + rewrite loop_done in * by assumption. assumption.
  - destruct (guard st) eqn:Hg.
    + rewrite loop_unfold in * by assumption.
      destruct (body st) as [evs [st'|]]; [|assumption].
      destruct (loop fuel st') as [[r log]|] eqn:Hl; [|discriminate].
      rewrite (IH _ _ Hl). assumption.
    + rewrite loop_done in * by assumption. assumption.
Qed.

Lemma loop_fuel_le (fuel fuel' : nat) (st : state item) x :
  (fuel <= fuel')%nat -> loop fuel st = Some x -> loop fuel' st = Some x.
Proof.
  induction 1 as [|m Hle IH]; intros H; [assumption|].
  apply loop_fuel_mono, IH, H.
Qed.

Lemma loop_deterministic (f1 f2 : nat) (st : state item) x y :
  loop f1 st = Some x -> loop f2 st = Some y -> x = y.
Proof.
  intros H1 H2.
  apply (loop_fuel_le f1 (Nat.max f1 f2)) in H1; [|lia].
  apply (loop_fuel_le f2 (Nat.max f1 f2)) in H2; [|lia].
  congruence.
Qed.

(** The list the loop is left with: what it started with, then the
    items of the pages it fetched, in order. *)
Lemma loop_results (fuel : nat) :
  forall (st : state item) r log,
    loop fuel st = Some (r, log) ->
    r = results st ++ concat (fetched_pages log).
Proof.
  induction fuel as [|fuel IH]; intros st r log H;
    destruct (guard st) eqn:Hg;
    try (rewrite loop_done in H by assumption; inversion H; subst;
         simpl; rewrite app_nil_r; reflexivity).
  - rewrite loop_out_of_fuel in H by assumption. discriminate.
  - rewrite loop_unfold in H by assumption.
    destruct (body_cases st) as [[Ho Hb]|[[Ho Hb]|[(x & items & Ho & Hb)|[Ho Hb]]]];
      rewrite Hb in H; clear Hb.
    + inversion H; subst. rewrite Ho. simpl. rewrite app_nil_r. reflexivity.
    + inversion H; subst.
      destruct (session (calls st) (page st)); try discriminate;
        simpl; rewrite app_nil_r; reflexivity.
    + destruct (Fetch.loop _ _ fuel _) as [[r' log']|] eqn:Hl; [|discriminate].
      inversion H; subst. apply IH in Hl. rewrite Hl, Ho. simpl.
      rewrite <- !app_assoc. reflexivity.
    + destruct (Fetch.loop _ _ fuel _) as [[r' log']|] eqn:Hl; [|discriminate].
      inversion H; subst. apply IH in Hl. rewrite Hl, Ho. simpl. reflexivity.
Qed.

(** A run that enters the body starts with a request for the current
    page. *)
Lemma loop_first_event (fuel : nat) (st : state item) r log :
  guard st = true ->
  loop fuel st = Some (r, log) ->
  exists rest,
    log = Get (page st) (session (calls st) (page st)) :: rest.
Proof.
  intros Hg H. destruct fuel as [|fuel].
  - rewrite loop_out_of_fuel in H by assumption. discriminate.
  - rewrite loop_unfold in H by assumption.
    destruct (body_cases st) as [[Ho Hb]|[[Ho Hb]|[(x & items & Ho & Hb)|[Ho Hb]]]];
      rewrite Hb in H; clear Hb;
      try (inversion H; subst; eexists; reflexivity);
      destruct (Fetch.loop _ _ fuel _) as [[r' log']|]; try discriminate;
      inversion H; subst; eexists; reflexivity.
Qed.

(** The log of a run that left the loop is a sequence of rounds. *)
Lemma loop_paced (fuel : nat) :
  forall (st : state item) r log,
    loop fuel st = Some (r, log) -> paced item log.
Proof.
  induction fuel as [|fuel IH]; intros st r log H;
    destruct (guard st) eqn:Hg;
    try (rewrite loop_done in H by assumption; inversion H; subst;
         constructor).
  - rewrite loop_out_of_fuel in H by assumption. discriminate.
  - rewrite loop_unfold in H by assumption.
    destruct (body_cases st) as [[Ho Hb]|[[Ho Hb]|[(x & items & Ho & Hb)|[Ho Hb]]]];
      rewrite Hb in H; clear Hb.
    + inversion H; subst. rewrite Ho. constructor.
    + inversion H; subst. constructor. assumption.
    + destruct (Fetch.loop _ _ fuel _) as [[r' log']|] eqn:Hl; [|discriminate].
      inversion H; subst. rewrite Ho. simpl. constructor. eapply IH, Hl.
    + destruct (Fetch.loop _ _ fuel _) as [[r' log']|] eqn:Hl; [|discriminate].
      inversion H; subst. rewrite Ho. simpl.
      pose proof (IH _ _ _ Hl) as Hp.
      apply loop_first_event in Hl; [|exact Hg].
      destruct Hl as [rest ->]. simpl. constructor. exact Hp.
Qed.

(** A run of the whole loop passes through every state it reaches. *)
Lemma reaches_split (st0 st : state item) (log : list (event item)) :
  reaches st0 log st ->
  forall fuel r log',
    loop fuel st0 = Some (r, log') ->
    exists fuel' rest,
      loop fuel' st = Some (r, rest) /\ log' = log ++ rest.
Proof.
  induction 1 as [|log st evs st' Hr IH Hg Hb]; intros fuel r log' H.
  - exists fuel, log'. split; [assumption|reflexivity].
  - destruct (IH _ _ _ H) as (fuel' & rest & Hl & ->).
    destruct fuel' as [|fuel'].
    + rewrite loop_out_of_fuel in Hl by assumption. discriminate.
    + rewrite loop_unfold, Hb in Hl by assumption.
      destruct (Fetch.loop _ _ fuel' st') as [[r' rest']|] eqn:Hl';
        [|discriminate].
      inversion Hl; subst. exists fuel', rest'.
      split; [assumption|]. rewrite app_assoc. reflexivity.
Qed.

(** A run that ends from a state the loop reaches ends from the start. *)
Lemma reaches_loop (st0 st : state item) (log : list (event item)) :
  reaches st0 log st ->
  forall fuel r rest,
    loop fuel st = Some (r, rest) ->
    exists fuel', loop fuel' st0 = Some (r, log ++ rest).
Proof.
  induction 1 as [|log st evs st' Hr IH Hg Hb]; intros fuel r rest H.
  - exists fuel. assumption.
  - rewrite <- app_assoc. apply (IH (S fuel)).
    rewrite loop_unfold, Hb, H by assumption. reflexivity.
Qed.

(** A run that does not end from a state the loop reaches does not end
    from the start. *)
Lemma reaches_diverges (st0 st : state item) (log : list (event item)) :
  reaches st0 log st ->
  (forall fuel, loop fuel st = None) ->
  forall fuel, loop fuel st0 = None.
Proof.
  induction 1 as [|log st evs st' Hr IH Hg Hb]; intros Hdiv; [assumption|].
  apply IH. intros [|fuel].
  - apply loop_out_of_fuel. assumption.
  - rewrite loop_unfold, Hb, Hdiv by assumption. reflexivity.
Qed.

(** What the loop holds in a state it reaches. *)
Lemma reaches_results (st0 st : state item) (log : list (event item)) :
  reaches st0 log st ->
  results st = results st0 ++ concat (fetched_pages log).
Proof.
  induction 1 as [|log st evs st' Hr IH Hg Hb].
  - simpl. rewrite app_nil_r. reflexivity.
  - rewrite fetched_pages_app, concat_app, app_assoc, <- IH.
    destruct (body_cases st) as [[Ho Hb']|[[Ho Hb']|[(x & items & Ho & Hb')|[Ho Hb']]]];
      rewrite Hb' in Hb; inversion Hb; subst; clear Hb; rewrite Ho; simpl;
      rewrite ?app_nil_r; reflexivity.
Qed.

(** A run that breaks out of the loop in a state it reaches: the value
    returned and the log, whatever the fuel. *)
Lemma break_returns (st : state item) (log : list (event item)) :
  reaches init log st ->
  guard st = true ->
  body st = ([Get (page st) (session (calls st) (page st))], None) ->
  let final := log ++ [Get (page st) (session (calls st) (page st))] in
  (exists fuel, fetch_results fuel = Some (results st, final)) /\
  (forall fuel r log',
      fetch_results fuel = Some (r, log') -> r = results st /\ log' = final).
Proof.
  intros Hr Hg Hb final.
  assert (Hone : loop 1 st = Some (results st, [Get (page st) (session (calls st) (page st))])).
  { rewrite loop_unfold, Hb by assumption. reflexivity. }
  assert (Hslice : slice_to num_results (results st) = results st).
  { apply slice_to_all. unfold Fetch.guard in Hg.
    apply Z.ltb_lt in Hg. lia. }
  destruct (reaches_loop _ _ _ Hr _ _ _ Hone) as [fuel0 H0].
  split.
  - exists fuel0. unfold Fetch.fetch_results. rewrite H0, Hslice. reflexivity.
  - intros fuel r log' H. unfold Fetch.fetch_results in H.
    destruct (Fetch.loop _ _ fuel init) as [[r1 log1]|] eqn:Hl; [|discriminate].
    inversion H; subst; clear H.
    pose proof (loop_deterministic _ _ _ _ _ Hl H0) as E.
    inversion E; subst. split; [assumption|reflexivity].
Qed.

End LoopFacts.

(* ================================================================== *)
(** ** The pagination loop: what [fetch_results] returns *)
(* ================================================================== *)

Section FetchResults.

Import Py Fetch.

Context {item : Type}.
Variable session : fetcher item.
Variable num_results : Z.

Local Notation guard := (guard num_results).
Local Notation body := (body session).
Local Notation loop := (loop session num_results).
Local Notation reaches := (reaches session num_results).
Local Notation fetch_results := (fetch_results session num_results).

Lemma guard_below (st : state item) :
  guard st = true -> Z.of_nat (length (results st)) < num_results.
Proof. unfold Fetch.guard. apply Z.ltb_lt. Qed.

(** With no positive target the loop is never entered. *)
Lemma fetch_results_no_target (fuel : nat) :
  num_results <= 0 -> fetch_results fuel = Some ([], []).
Proof.
  intros Hn. unfold Fetch.fetch_results.
  rewrite loop_done.
  - simpl. unfold slice_to.
    destruct (0 <=? num_results); rewrite firstn_nil; reflexivity.
  - unfold Fetch.guard. simpl. apply Z.ltb_ge. assumption.
Qed.

(** C1. Whatever the remote end does and whatever the target count,
    the list [fetch_results] returns is [num_results] elements cut off
    the front of the concatenation of the item lists of the
    successfully fetched pages, in the order they were fetched: a
    prefix of it, of at most [num_results] elements for a target count
    [num_results >= 0] (and empty for a target that is not positive). *)
Theorem fetch_results_capped_prefix (fuel : nat) (r : list item)
        (log : list (event item)) :
  fetch_results fuel = Some (r, log) ->
  r = slice_to num_results (concat (fetched_pages log)) /\
  (exists rest, concat (fetched_pages log) = r ++ rest) /\
  (0 <= num_results ->
   Z.of_nat (length r) <= num_results /\
   r = firstn (Z.to_nat num_results) (concat (fetched_pages log))) /\
  (num_results <= 0 -> r = []).
Proof.
  intros H.
  assert (Hneg : num_results <= 0 -> r = []).
  { intros Hn. rewrite (fetch_results_no_target fuel Hn) in H.
    inversion H. reflexivity. }
  unfold Fetch.fetch_results in H.
  destruct (Fetch.loop _ _ fuel init) as [[r0 log0]|] eqn:Hl; [|discriminate].
  inversion H; subst; clear H.
  apply loop_results in Hl. simpl in Hl. subst r0.
  split; [reflexivity|].
  split; [apply slice_to_prefix|].
  split; [|exact Hneg].
  intros Hn.
  split; [apply slice_to_length; assumption|].
  apply slice_to_nonneg; assumption.
Qed.

(** The branch for status 403 of the loop, for a session that raises
    [HTTPError] with that status (the session that [search_github]
    builds never does, see [mounted_get_not_forced]): the round sleeps
    60 and leaves [results] and [page] as they are; the loop test still
    holds and the next round asks for the same page; every run that
    returns goes on with that request, and what it returns starts with
    the records accumulated before the cooldown. *)
Theorem rate_limit_cooldown_retries_same_page
        (log : list (event item)) (st : state item) :
  reaches init log st ->
  guard st = true ->
  session (calls st) (page st) = HTTPError 403 ->
  let st' := mkState (results st) (page st) (S (calls st)) in
  let round := [Get (page st) (HTTPError 403); Sleep 60] in
  body st = (round, Some st') /\
  reaches init (log ++ round) st' /\
  guard st' = true /\
  (exists evs next,
      body st'
      = (Get (page st) (session (S (calls st)) (page st)) :: evs, next)) /\
  forall fuel r log',
    fetch_results fuel = Some (r, log') ->
    exists o rest kept,
      log' = log ++ round ++ Get (page st) o :: rest /\
      r = results st ++ kept.
Proof.
  intros Hr Hg Ho st' round.
  assert (Hb : body st = (round, Some st')).
  { destruct (body_cases session st)
      as [[Ho' Hb]|[[Ho' Hb]|[(x & items & Ho' & Hb)|[Ho' Hb]]]];
      rewrite Ho in *; try discriminate.
    exact Hb. }
  assert (Hr' : reaches init (log ++ round) st').
  { eapply reaches_next; eassumption. }
  assert (Hg' : guard st' = true) by exact Hg.
  split; [exact Hb|]. split; [exact Hr'|]. split; [exact Hg'|].
  split.
  { destruct (body_cases session st')
      as [[_ E]|[[_ E]|[(x & items & _ & E)|[_ E]]]];
      rewrite E; eexists; eexists; reflexivity. }
  intros fuel r log' H. unfold Fetch.fetch_results in H.
  destruct (Fetch.loop _ _ fuel init) as [[r0 log0]|] eqn:Hl; [|discriminate].
  inversion H; subst; clear H.
  destruct (reaches_split _ _ _ _ _ Hr' _ _ _ Hl) as (fuel' & rest & Hl' & ->).
  destruct (loop_first_event _ _ _ _ _ _ Hg' Hl') as [rest' ->].
  apply loop_results in Hl'. simpl in Hl'. subst r0.
  destruct (slice_to_app num_results (results st)
              (concat (fetched_pages (Get (page st)
                 (session (S (calls st)) (page st)) :: rest'))))
    as [kept Hk].
  { apply guard_below in Hg. lia. }
  exists (session (S (calls st)) (page st)), rest', kept.
  split; [|exact Hk].
  rewrite <- app_assoc. reflexivity.
Qed.

(** C3. When the request of a round is answered with an empty item
    list, [fetch_results] returns: the value is exactly the list
    accumulated before that round, which is the concatenation of the
    pages fetched before and is shorter than the target count, and the
    request for the empty page is the last event of the run. *)
Theorem empty_page_returns_accumulated
        (log : list (event item)) (st : state item) :
  reaches init log st ->
  guard st = true ->
  session (calls st) (page st) = Items [] ->
  (exists fuel,
      fetch_results fuel
      = Some (results st, log ++ [Get (page st) (Items [])])) /\
  (forall fuel r log',
      fetch_results fuel = Some (r, log') ->
      r = results st /\ log' = log ++ [Get (page st) (Items [])]) /\
  results st = concat (fetched_pages log) /\
  Z.of_nat (length (results st)) < num_results.
Proof.
  intros Hr Hg Ho.
  assert (Hb : body st = ([Get (page st) (session (calls st) (page st))], None)).
  { unfold Fetch.body. cbv zeta. rewrite Ho. reflexivity. }
  pose proof (break_returns _ _ _ _ Hr Hg Hb) as Hret.
  cbv zeta in Hret. rewrite Ho in Hret.
  destruct Hret as [Hex Hall].
  split; [exact Hex|]. split; [exact Hall|]. split.
  - apply reaches_results in Hr. exact Hr.
  - apply guard_below. assumption.
Qed.

(** C4. When the request of a round fails with an HTTP error other
    than 403 or with any other exception, [fetch_results] returns
    normally: the value is the list accumulated before that round
    (which its truncation to the target count leaves as it is), and
    the failed request is the last event of the run. *)
Theorem terminal_failure_returns_partial
        (log : list (event item)) (st : state item) :
  reaches init log st ->
  guard st = true ->
  terminal (session (calls st) (page st)) = true ->
  let o := session (calls st) (page st) in
  (exists fuel,
      fetch_results fuel = Some (results st, log ++ [Get (page st) o])) /\
  (forall fuel r log',
      fetch_results fuel = Some (r, log') ->
      r = results st /\ log' = log ++ [Get (page st) o]) /\
  slice_to num_results (results st) = results st /\
  results st = concat (fetched_pages log).
Proof.
  intros Hr Hg Ho o.
  assert (Hb : body st = ([Get (page st) o], None)).
  { destruct (body_cases session st)
      as [[Ho' Hb]|[[Ho' Hb]|[(x & items & Ho' & Hb)|[Ho' Hb]]]];
      try exact Hb; rewrite Ho' in Ho; discriminate. }
  pose proof (break_returns _ _ _ _ Hr Hg Hb) as [Hex Hall].
  split; [exact Hex|]. split; [exact Hall|]. split.
  - apply slice_to_all. apply guard_below in Hg. lia.
  - apply reaches_results in Hr. exact Hr.
Qed.

End FetchResults.

(* ================================================================== *)
(** ** The pagination loop: pacing *)
(* ================================================================== *)

Section Pacing.

Import Py Fetch.

Context {item : Type}.

(** What stands next to an event in the log of a run that returned. *)
Lemma paced_neighbours (log : list (event item)) :
  paced item log ->
  forall pre e post,
    log = pre ++ e :: post ->
    (forall p x items,
        e = Get p (Items (x :: items)) -> exists post', post = Sleep 1 :: post') /\
    (forall p o,
        e = Get p o -> o = Items [] \/ terminal o = true -> post = []) /\
    (e = Sleep 1 ->
     exists pre' p x items, pre = pre' ++ [Get p (Items (x :: items))]) /\
    (e = Sleep 60 -> exists p o post', post = Get p o :: post').
Proof.
  induction 1 as [|p|p o Ht|p x items rest Hp IH|p o rest Hp IH];
    intros pre e post E.
  - destruct pre; discriminate.
  - destruct pre as [|a [|b pre]]; try discriminate.
    inversion E; subst.
    repeat split; intros; try discriminate; reflexivity.
  - destruct pre as [|a [|b pre]]; try discriminate.
    inversion E; subst.
    repeat split; intros; try discriminate; try reflexivity.
    match goal with
    | H : Get _ _ = Get _ _ |- _ => inversion H; subst
    end.
    discriminate.
  - destruct pre as [|a [|b pre]]; inversion E; subst; clear E.
    + repeat split; intros; try discriminate.
      * eexists. reflexivity.
      * match goal with
        | H : Get _ _ = Get _ _ |- _ => inversion H; subst
        end.
        match goal with
        | H : _ \/ _ |- _ => destruct H; discriminate
        end.
    + repeat split; intros; try discriminate.
      exists [], p, x, items. reflexivity.
    + destruct (IH _ _ _ eq_refl) as (H1 & H2 & H3 & H4).
      repeat split; try assumption.
      intros He. destruct (H3 He) as (pre' & p' & x' & items' & ->).
      exists (Get p (Items (x :: items)) :: Sleep 1 :: pre'), p', x', items'.
      reflexivity.
  - destruct pre as [|a [|b pre]]; inversion E; subst; clear E.
    + repeat split; intros; try discriminate.
      match goal with
      | H : Get _ _ = Get _ _ |- _ => inversion H; subst
      end.
      match goal with
      | H : _ \/ _ |- _ => destruct H; discriminate
      end.
    + repeat split; intros; try discriminate.
      exists p, o, rest. reflexivity.
    + match goal with
      | Hrest : Get p o :: rest = _ |- _ =>
          destruct (IH _ _ _ Hrest) as (I1 & I2 & I3 & I4)
      end.
      repeat split; try assumption.
      intros He. destruct (I3 He) as (pre' & p' & x' & items' & ->).
      exists (Get p (HTTPError 403) :: Sleep 60 :: pre'), p', x', items'.
      reflexivity.
Qed.

Variable session : fetcher item.
Variable num_results : Z.

Local Notation guard := (guard num_results).
Local Notation loop := (loop session num_results).
Local Notation reaches := (reaches session num_results).
Local Notation fetch_results := (fetch_results session num_results).

(** C8, as the code has it. In every run that returns, [sleep(1)]
    follows every request answered with a non-empty page, the page
    that brings the list up to the target count included; it occurs
    nowhere else; a request answered with an empty page or a terminal
    failure is the last event; and the [sleep(60)] of a cooldown is
    followed by the next request, with no [sleep(1)] between. *)
Theorem politeness_delay_after_every_page
        (fuel : nat) (r : list item) (log : list (event item)) :
  fetch_results fuel = Some (r, log) ->
  (forall pre p x items post,
      log = pre ++ Get p (Items (x :: items)) :: post ->
      exists post', post = Sleep 1 :: post') /\
  (forall pre post,
      log = pre ++ Sleep 1 :: post ->
      exists pre' p x items, pre = pre' ++ [Get p (Items (x :: items))]) /\
  (forall pre p o post,
      log = pre ++ Get p o :: post ->
      o = Items [] \/ terminal o = true -> post = []) /\
  (forall pre post,
      log = pre ++ Sleep 60 :: post ->
      exists p o post', post = Get p o :: post').
Proof.
  intros H. unfold Fetch.fetch_results in H.
  destruct (Fetch.loop _ _ fuel init) as [[r0 log0]|] eqn:Hl; [|discriminate].
  inversion H; subst; clear H.
  pose proof (loop_paced _ _ _ _ _ _ Hl) as Hp.
  split; [|split; [|split]].
  - intros pre p x items post E.
    destruct (paced_neighbours _ Hp _ _ _ E) as (H1 & _). eapply H1. reflexivity.
  - intros pre post E.
    destruct (paced_neighbours _ Hp _ _ _ E) as (_ & _ & H3 & _).
    apply H3. reflexivity.
  - intros pre p o post E Ho.
    destruct (paced_neighbours _ Hp _ _ _ E) as (_ & H2 & _).
    eapply H2; [reflexivity|assumption].
  - intros pre post E.
    destruct (paced_neighbours _ Hp _ _ _ E) as (_ & _ & _ & H4).
    apply H4. reflexivity.
Qed.

End Pacing.

(* ================================================================== *)
(** ** The pagination loop: termination *)
(* ================================================================== *)

Section Termination.

Import Py Fetch.

Context {item : Type}.
Variable session : fetcher item.
Variable num_results : Z.

Local Notation guard := (guard num_results).
Local Notation body := (body session).
Local Notation loop := (loop session num_results).
Local Notation reaches := (reaches session num_results).
Local Notation fetch_results := (fetch_results session num_results).

(** A page that answers 403 to every request keeps the loop on it. *)
Lemma cooldown_forever (st : state item) :
  guard st = true ->
  (forall k, session (calls st + k)%nat (page st) = HTTPError 403) ->
  forall k,
    reaches st (cooldowns (page st) k)
            (mkState (results st) (page st) (calls st + k)).
Proof.
  intros Hg H403 k. induction k as [|k IH].
  - simpl. rewrite Nat.add_0_r. destruct st. constructor.
  - replace (@cooldowns item (page st) (S k))
      with (@cooldowns item (page st) k
              ++ [Get (page st) (HTTPError 403); Sleep 60]).
    + replace (calls st + S k)%nat with (S (calls st + k)) by lia.
      eapply reaches_next; [exact IH|exact Hg|].
      unfold Fetch.body. cbv zeta. simpl. rewrite H403. reflexivity.
    + clear. induction k as [|k IH]; simpl; [reflexivity|].
      simpl in IH. rewrite IH. reflexivity.
Qed.

Lemma always_403_diverges (fuel : nat) :
  forall st : state item,
    guard st = true ->
    (forall k, session (calls st + k)%nat (page st) = HTTPError 403) ->
    loop fuel st = None.
Proof.
  induction fuel as [|fuel IH]; intros st Hg H403.
  - apply loop_out_of_fuel. assumption.
  - rewrite loop_unfold by assumption.
    unfold Fetch.body. cbv zeta.
    pose proof (H403 0%nat) as H0. rewrite Nat.add_0_r in H0.
    rewrite H0. simpl. rewrite IH; [reflexivity|exact Hg|].
    intros k. cbn [calls page].
    replace (S (calls st) + k)%nat with (calls st + S k)%nat by lia.
    apply H403.
Qed.

Lemma reaches_trans (st0 st1 st2 : state item) (l1 l2 : list (event item)) :
  reaches st0 l1 st1 -> reaches st1 l2 st2 -> reaches st0 (l1 ++ l2) st2.
Proof.
  intros H1 H2. induction H2 as [|l2 st evs st' H2 IH Hg Hb].
  - rewrite app_nil_r. assumption.
  - rewrite app_assoc. eapply reaches_next; eassumption.
Qed.

Hypothesis answers : eventually_answers session.

(** Cooldowns on a page end with the first other answer. *)
Lemma cooldowns_end (k : nat) :
  forall st : state item,
    guard st = true ->
    session (calls st + k)%nat (page st) <> HTTPError 403 ->
    (forall n,
        session n (page st) <> HTTPError 403 ->
        exists fuel x, loop fuel (mkState (results st) (page st) n) = Some x) ->
    exists fuel x, loop fuel st = Some x.
Proof.
  induction k as [|k IH]; intros st Hg Hk Hnext.
  - rewrite Nat.add_0_r in Hk. destruct st. apply Hnext. exact Hk.
  - destruct (body_cases session st)
      as [[Ho Hb]|[[Ho Hb]|[(x & items & Ho & Hb)|[Ho Hb]]]].
    + destruct st; apply Hnext; simpl in *; rewrite Ho; discriminate.
    + destruct st; apply Hnext; simpl in *; intros E; rewrite E in Ho;
        discriminate.
    + destruct st; apply Hnext; simpl in *; rewrite Ho; discriminate.
    + destruct (IH (mkState (results st) (page st) (S (calls st))))
        as (fuel & [r log] & Hl).
      * exact Hg.
      * simpl. replace (S (calls st + k)) with (calls st + S k)%nat by lia.
        exact Hk.
      * exact Hnext.
      * exists (S fuel). eexists.
        rewrite loop_unfold, Hb, Hl by assumption. reflexivity.
Qed.

Lemma loop_terminates (n : nat) :
  forall st : state item,
    (Z.to_nat (num_results - Z.of_nat (length (results st))) <= n)%nat ->
    exists fuel x, loop fuel st = Some x.
Proof.
  induction n as [|n IH]; intros st Hm.
  - exists 0%nat. eexists. apply loop_done.
    unfold Fetch.guard. apply Z.ltb_ge. lia.
  - destruct (guard st) eqn:Hg.
    2:{ exists 0%nat. eexists. apply loop_done. assumption. }
    destruct (answers (page st) (calls st)) as [k Hk].
    apply (cooldowns_end k st Hg Hk).
    intros c Hc.
    set (st1 := mkState (results st) (page st) c).
    assert (Hg1 : guard st1 = true) by exact Hg.
    destruct (body_cases session st1)
      as [[Ho Hb]|[[Ho Hb]|[(x & items & Ho & Hb)|[Ho Hb]]]].
    + exists 1%nat. eexists. rewrite loop_unfold, Hb by assumption. reflexivity.
    + exists 1%nat. eexists. rewrite loop_unfold, Hb by assumption. reflexivity.
    + destruct (IH (mkState (results st1 ++ x :: items) (page st1 + 1)
                            (S (calls st1))))
        as (fuel & [r log] & Hl).
      * simpl. rewrite length_app. simpl.
        apply guard_below in Hg. lia.
      * exists (S fuel). eexists.
        rewrite loop_unfold, Hb, Hl by assumption. reflexivity.
    + exfalso. apply Hc. exact Ho.
Qed.

End Termination.

Section Unbounded.

Import Py Fetch.

Context {item : Type}.
Variable session : fetcher item.
Variable num_results : Z.

Local Notation guard := (guard num_results).
Local Notation reaches := (reaches session num_results).
Local Notation fetch_results := (fetch_results session num_results).

(** The loop itself, for an arbitrary session: when it comes to a page
    whose every request raises [HTTPError] with status 403, it makes
    [k] rounds of cooldown on that page for every [k] and no amount of
    fuel lets it return; when every page, asked often enough, gives
    another answer, it returns. *)
Theorem cooldown_retries_unbounded :
  (forall (log : list (event item)) (st : state item),
      reaches init log st ->
      guard st = true ->
      (forall k, session (calls st + k)%nat (page st) = HTTPError 403) ->
      (forall k,
          reaches init (log ++ cooldowns (page st) k)
                  (mkState (results st) (page st) (calls st + k))) /\
      (forall fuel, fetch_results fuel = None)) /\
  (eventually_answers session ->
   exists fuel r log, fetch_results fuel = Some (r, log)).
Proof.
  split.
  - intros log st Hr Hg H403. split.
    + intros k. eapply reaches_trans; [exact Hr|].
      apply cooldown_forever; assumption.
    + intros fuel. unfold Fetch.fetch_results.
      rewrite (reaches_diverges _ _ _ _ _ Hr); [reflexivity|].
      intros fuel'. apply always_403_diverges; assumption.
  - intros Hans.
    destruct (loop_terminates session num_results Hans _ init (le_n _))
      as (fuel & [r log] & Hl).
    exists fuel, (slice_to num_results r), log.
    unfold Fetch.fetch_results. rewrite Hl. reflexivity.
Qed.

End Unbounded.

(* ================================================================== *)
(** ** The pagination loop on concrete runs *)
(* ================================================================== *)

Section FetchScenarios.

Import Py Fetch Scenarios.

Lemma reaches_after_first_page (session : fetcher Z) (n : Z) :
  session 0%nat 1 = Items [1; 2; 3] ->
  0 < n ->
  reaches session n init first_page_log after_first_page.
Proof.
  intros H0 Hn.
  apply (reaches_next session n init [] init first_page_log after_first_page).
  - constructor.
  - unfold guard. simpl. apply Z.ltb_lt. exact Hn.
  - unfold body. cbv zeta. simpl. rewrite H0. reflexivity.
Qed.

Lemma reaches_after_second_page :
  reaches two_pages_then_empty 50 init second_page_log after_second_page.
Proof.
  apply (reaches_next two_pages_then_empty 50 init first_page_log
                      after_first_page
                      [Get 2 (Items [4; 5; 6]); Sleep 1] after_second_page).
  - apply reaches_after_first_page; [reflexivity|lia].
  - reflexivity.
  - reflexivity.
Qed.

(** Target 5, pages of 3, 3 and 0 items: the first five items, and no
    third request. *)
Lemma fetch_results_capped_prefix_witness :
  fetch_results two_pages_then_empty 5 2
  = Some ([1; 2; 3; 4; 5], second_page_log) /\
  Z.of_nat (length [1; 2; 3; 4; 5]) <= 5 /\
  [1; 2; 3; 4; 5]
  = firstn (Z.to_nat 5) (concat (fetched_pages second_page_log)) /\
  exists rest,
    concat (fetched_pages second_page_log) = [1; 2; 3; 4; 5] ++ rest.
Proof.
  split; [reflexivity|].
  destruct (fetch_results_capped_prefix two_pages_then_empty 5 2
              [1; 2; 3; 4; 5] second_page_log eq_refl)
    as (_ & Hprefix & Hcap & _).
  destruct Hcap as [Hlen Hfirst]; [lia|].
  split; [exact Hlen|]. split; [exact Hfirst|exact Hprefix].
Defined.

(** An empty third page below a target of 50. *)
Lemma empty_page_returns_accumulated_witness :
  exists fuel,
    fetch_results two_pages_then_empty 50 fuel
    = Some ([1; 2; 3; 4; 5; 6], second_page_log ++ [Get 3 (Items [])]).
Proof.
  destruct (empty_page_returns_accumulated two_pages_then_empty 50
              second_page_log after_second_page) as (H & _).
  - exact reaches_after_second_page.
  - reflexivity.
  - reflexivity.
  - exact H.
Defined.

(** Status 500 after the first page. *)
Lemma terminal_failure_returns_partial_witness :
  exists fuel,
    fetch_results server_error 50 fuel
    = Some ([1; 2; 3], first_page_log ++ [Get 2 (HTTPError 500)]).
Proof.
  destruct (terminal_failure_returns_partial server_error 50
              first_page_log after_first_page) as (H & _).
  - apply reaches_after_first_page; [reflexivity|lia].
  - reflexivity.
  - reflexivity.
  - exact H.
Defined.

(** C8, as stated, fails: with a target of 5 the second page is the
    final one, it meets the target, and [sleep(1)] follows it. *)
Lemma delay_follows_final_page :
  fetch_results two_pages_then_empty 5 2
  = Some ([1; 2; 3; 4; 5],
          [Get 1 (Items [1; 2; 3]); Sleep 1;
           Get 2 (Items [4; 5; 6]); Sleep 1]) /\
  ~ no_delay_after_final_page
      [Get 1 (Items [1; 2; 3]); Sleep 1; Get 2 (Items [4; 5; 6]); Sleep 1].
Proof.
  split; [reflexivity|].
  intros H.
  apply (H [Get 1 (Items [1; 2; 3]); Sleep 1] 2 (Items [4; 5; 6]) [Sleep 1]).
  - reflexivity.
  - intros p' o' [E|[]]. discriminate.
  - left. reflexivity.
Qed.

Lemma politeness_delay_after_every_page_witness :
  fetch_results limited_once 50 4
  = Some ([1; 2; 3; 4; 5; 6],
          [Get 1 (Items [1; 2; 3]); Sleep 1; Get 2 (HTTPError 403); Sleep 60;
           Get 2 (Items [4; 5; 6]); Sleep 1; Get 3 (Items [])]) /\
  forall pre p x items post,
    [Get 1 (Items [1; 2; 3]); Sleep 1; Get 2 (HTTPError 403); Sleep 60;
     Get 2 (Items [4; 5; 6]); Sleep 1; Get 3 (Items [])]
    = pre ++ Get p (Items (x :: items)) :: post ->
    exists post', post = Sleep 1 :: post'.
Proof.
  split; [reflexivity|].
  apply (politeness_delay_after_every_page limited_once 50 4
           [1; 2; 3; 4; 5; 6]).
  reflexivity.
Defined.

End FetchScenarios.

(* ================================================================== *)
(** ** Dictionaries and the export monad *)
(* ================================================================== *)

Section DictFacts.

Import Py.

Lemma dict_get_set_same (d : list (string * json)) (key : string) (v : json) :
  dict_get (dict_set d key v) key = Some v.
Proof.
  induction d as [|[k w] d IH]; simpl.
  - rewrite String.eqb_refl. reflexivity.
  - destruct (String.eqb k key) eqn:E; simpl; rewrite E; [reflexivity|exact IH].
Qed.

Lemma dict_get_set_other (d : list (string * json)) (key key' : string) (v : json) :
  key <> key' ->
  dict_get (dict_set d key v) key' = dict_get d key'.
Proof.
  intros Hne. induction d as [|[k w] d IH]; simpl.
  - apply String.eqb_neq in Hne. rewrite Hne. reflexivity.
  - destruct (String.eqb k key) eqn:E; simpl.
    + apply String.eqb_eq in E. subst k.
      apply String.eqb_neq in Hne. rewrite Hne. reflexivity.
    + destruct (String.eqb k key'); [reflexivity|exact IH].
Qed.

Lemma dict_get_In (d : list (string * json)) (key : string) (v : json) :
  dict_get d key = Some v -> In (key, v) d.
Proof.
  induction d as [|[k w] d IH]; simpl; [discriminate|].
  destruct (String.eqb k key) eqn:E; intros H.
  - apply String.eqb_eq in E. inversion H; subst. left. reflexivity.
  - right. apply IH, H.
Qed.

Lemma In_dict_get (d : list (string * json)) (key : string) (v : json) :
  wf_dict d -> In (key, v) d -> dict_get d key = Some v.
Proof.
  unfold wf_dict. induction d as [|[k w] d IH]; simpl; intros Hwf Hin; [tauto|].
  inversion Hwf as [|? ? Hk Hd]; subst.
  destruct Hin as [E|Hin].
  - inversion E; subst. rewrite String.eqb_refl. reflexivity.
  - destruct (String.eqb k key) eqn:E.
    + apply String.eqb_eq in E. subst k. exfalso. apply Hk.
      apply (in_map fst) in Hin. exact Hin.
    + apply IH; assumption.
Qed.

End DictFacts.

Section MonadFacts.

Import Py Exporter.

Lemma bind_ret_l {A B : Type} (a : A) (k : A -> M B) :
  bind (ret a) k = k a.
Proof.
  unfold bind, ret. destruct (k a) as [[b l]|]; reflexivity.
Qed.

Lemma bind_ret_r {A : Type} (m : M A) :
  bind m (fun a => ret a) = m.
Proof.
  destruct m as [[a l]|]; simpl; [rewrite app_nil_r|]; reflexivity.
Qed.

Lemma bind_assoc {A B C : Type} (m : M A) (k : A -> M B) (h : B -> M C) :
  bind (bind m k) h = bind m (fun a => bind (k a) h).
Proof.
  destruct m as [[a l]|]; simpl; [|reflexivity].
  destruct (k a) as [[b l']|]; simpl; [|reflexivity].
  destruct (h b) as [[c l'']|]; simpl; [|reflexivity].
  rewrite app_assoc. reflexivity.
Qed.

Lemma bind_some {A B : Type} (m : M A) (k : A -> M B) (a : A) (l : list call) :
  m = Some (a, l) ->
  bind m k = match k a with
             | Some (b, l') => Some (b, l ++ l')
             | None => None
             end.
Proof. intros ->. reflexivity. Qed.

Lemma bind_inv {A B : Type} (m : M A) (k : A -> M B) (b : B) (l : list call) :
  bind m k = Some (b, l) ->
  exists a l1 l2, m = Some (a, l1) /\ k a = Some (b, l2) /\ l = l1 ++ l2.
Proof.
  destruct m as [[a l1]|]; simpl; [|discriminate].
  destruct (k a) as [[b' l2]|] eqn:E; [|discriminate].
  intros H. inversion H; subst. exists a, l1, l2. auto.
Qed.

(** Every round of a loop that ends contributes its value, in order. *)
Lemma for_each_Forall2 {A B : Type} (f : A -> M B) (l : list A) :
  forall ys log,
    for_each f l = Some (ys, log) ->
    Forall2 (fun x y => exists calls, f x = Some (y, calls)) l ys.
Proof.
  induction l as [|x l IH]; simpl; intros ys log H.
  - inversion H; subst. constructor.
  - apply bind_inv in H. destruct H as (y & l1 & l2 & Hx & H & _).
    apply bind_inv in H. destruct H as (ys' & l3 & l4 & Hl & H & _).
    inversion H; subst. constructor; [eauto|]. eapply IH, Hl.
Qed.

(** A loop whose rounds make no calls and do not raise. *)
Lemma for_each_quiet {A B : Type} (f : A -> M B) (g : A -> B) (l : list A) :
  (forall x, In x l -> f x = Some (g x, [])) ->
  for_each f l = Some (map g l, []).
Proof.
  induction l as [|x l IH]; simpl; intros H; [reflexivity|].
  rewrite (H x) by (left; reflexivity). simpl.
  rewrite IH by (intros y Hy; apply H; right; exact Hy). reflexivity.
Qed.

Lemma for_each_In {A B : Type} (f : A -> M B) (l : list A) :
  forall ys log x,
    for_each f l = Some (ys, log) ->
    In x l ->
    exists y calls, f x = Some (y, calls) /\ In y ys.
Proof.
  intros ys log x H Hin. apply for_each_Forall2 in H.
  induction H as [|a y l ys (calls & Ha) _ IH]; [contradiction|].
  destruct Hin as [->|Hin].
  - exists y, calls. split; [exact Ha|left; reflexivity].
  - destruct (IH Hin) as (y' & calls' & Hy & Hin'). exists y', calls'.
    split; [exact Hy|right; exact Hin'].
Qed.

Lemma for_each_In_inv {A B : Type} (f : A -> M B) (l : list A) :
  forall ys log y,
    for_each f l = Some (ys, log) ->
    In y ys ->
    exists x calls, In x l /\ f x = Some (y, calls).
Proof.
  intros ys log y H Hin. apply for_each_Forall2 in H.
  induction H as [|a b l ys (calls & Ha) _ IH]; [contradiction|].
  destruct Hin as [->|Hin].
  - exists a, calls. split; [left; reflexivity|exact Ha].
  - destruct (IH Hin) as (x & calls' & Hx & Hy). exists x, calls'.
    split; [right; exact Hx|exact Hy].
Qed.

(** A loop ends when each of its rounds does. *)
Lemma for_each_total {A B : Type} (f : A -> M B) (l : list A) :
  (forall x, In x l -> exists y, f x = Some y) ->
  exists ys, for_each f l = Some ys.
Proof.
  induction l as [|x l IH]; simpl; intros H.
  - eexists. reflexivity.
  - destruct (H x) as [[y lx] Hx]; [left; reflexivity|].
    destruct IH as [[ys ll] Hl]; [intros z Hz; apply H; right; exact Hz|].
    rewrite Hx. simpl. rewrite Hl. simpl. eexists. reflexivity.
Qed.

End MonadFacts.

(* ================================================================== *)
(** ** The exporters: enrichment and projections *)
(* ================================================================== *)

Section ExporterFacts.

Import Py Exporter.

Variable TRANSLATION_AVAILABLE : bool.
Variable detect : string -> option string.
Variable libretranslate : json -> option json.

Local Notation translate_text :=
  (translate_text TRANSLATION_AVAILABLE libretranslate).
Local Notation detect_language :=
  (detect_language TRANSLATION_AVAILABLE detect).
Local Notation json_repo :=
  (json_repo TRANSLATION_AVAILABLE detect libretranslate).
Local Notation csv_row :=
  (csv_row TRANSLATION_AVAILABLE detect libretranslate).
Local Notation xml_item :=
  (xml_item TRANSLATION_AVAILABLE detect libretranslate).
Local Notation xml_repository :=
  (xml_repository TRANSLATION_AVAILABLE detect libretranslate).
Local Notation save_to_csv :=
  (save_to_csv TRANSLATION_AVAILABLE detect libretranslate).

Lemma translate_text_total (text : json) :
  exists translated calls, translate_text text = Some (translated, calls).
Proof.
  unfold Exporter.translate_text, bind, emit, ret.
  destruct TRANSLATION_AVAILABLE; simpl; [destruct (libretranslate text)|]; eauto.
Qed.

Lemma json_repo_described (repo : record) (text : json) (lang : string) (calls : list call) :
  dict_get repo "description" = Some text ->
  truthy text = true ->
  detect_language text = Some (lang, calls) ->
  json_repo true repo =
    if py_in lang ["en"; "ar"]
    then Some (dict_set repo "description_translated" (JStr ""), calls)
    else match translate_text text with
         | Some (translated, calls') =>
             Some (dict_set repo "description_translated" translated, calls ++ calls')
         | None => None
         end.
Proof.
  intros Hget Htrue Hdet.
  unfold Exporter.json_repo, get_truthy, dict_item. rewrite Hget, Htrue.
  cbn [andb]. rewrite bind_ret_l. rewrite (bind_some _ _ _ _ Hdet).
  destruct (py_in lang ["en"; "ar"]); cbn [negb].
  - unfold ret. rewrite app_nil_r. reflexivity.
  - rewrite bind_ret_l.
    destruct (translate_text text) as [[t c]|]; simpl; [|reflexivity].
    rewrite app_nil_r. reflexivity.
Qed.

Lemma detect_language_inv (text : json) (lang : string) (calls : list call) :
  detect_language text = Some (lang, calls) ->
  (TRANSLATION_AVAILABLE = false /\ lang = "en" /\ calls = []) \/
  (TRANSLATION_AVAILABLE = true /\
   exists s, text = JStr s /\ detect s = Some lang /\ calls = [Detect s]).
Proof.
  unfold Exporter.detect_language.
  destruct TRANSLATION_AVAILABLE.
  - destruct text as [[| | |s]| |]; try discriminate.
    unfold bind, emit, ret, raise. destruct (detect s) as [l|] eqn:E; [|discriminate].
    intros H. inversion H; subst. right. split; [reflexivity|].
    exists s. auto.
  - intros H. inversion H; subst. left. auto.
Qed.

Lemma csv_row_split (translate : bool) (repo : record) :
  csv_row translate repo =
    bind (csv_row false repo)
         (fun row1 =>
            if translate && get_truthy repo "description" then
              bind (dict_item repo "description") (fun text =>
              bind (detect_language text) (fun lang =>
              if negb (py_in lang ["en"; "ar"]) then
                bind (dict_item repo "description") (fun text' =>
                bind (translate_text text') (fun translated =>
                ret (dict_set row1 "description_translated" translated)))
              else ret (dict_set row1 "description_translated" (JStr ""))))
            else ret row1).
Proof.
  unfold Exporter.csv_row at 2. cbn [andb]. rewrite bind_ret_r. reflexivity.
Qed.

Lemma csv_row_quiet (repo : record) (row : list (string * json)) (calls : list call) :
  csv_row false repo = Some (row, calls) -> calls = [].
Proof.
  unfold Exporter.csv_row. cbn [andb]. rewrite bind_ret_r.
  destruct (dict_mem repo "license" && get_truthy repo "license").
  - unfold dict_item. destruct (dict_get repo "license") as [[v|l|d]|];
      rewrite ?bind_ret_l; unfold ret, raise, bind; intros H; inversion H; reflexivity.
  - intros H; inversion H; reflexivity.
Qed.

Lemma csv_row_described (repo : record) (text : json) (lang : string) (calls : list call) (row : list (string * json)) :
  dict_get repo "description" = Some text ->
  truthy text = true ->
  detect_language text = Some (lang, calls) ->
  csv_row false repo = Some (row, []) ->
  csv_row true repo =
    if py_in lang ["en"; "ar"]
    then Some (dict_set row "description_translated" (JStr ""), calls)
    else match translate_text text with
         | Some (translated, calls') =>
             Some (dict_set row "description_translated" translated, calls ++ calls')
         | None => None
         end.
Proof.
  intros Hget Htrue Hdet Hrow.
  rewrite csv_row_split. rewrite (bind_some _ _ _ _ Hrow).
  unfold get_truthy, dict_item. rewrite Hget, Htrue.
  cbn [andb]. rewrite bind_ret_l. rewrite (bind_some _ _ _ _ Hdet).
  destruct (py_in lang ["en"; "ar"]); cbn [negb].
  - unfold ret. rewrite app_nil_r. reflexivity.
  - rewrite bind_ret_l.
    destruct (translate_text text) as [[t c]|]; simpl; [|reflexivity].
    rewrite app_nil_r. reflexivity.
Qed.

Lemma xml_item_described (repo : record) (v : scalar) (text : json) (lang : string) (calls : list call) :
  dict_get repo "description" = Some text ->
  truthy text = true ->
  detect_language text = Some (lang, calls) ->
  xml_item true repo ("description", JScalar v) =
    if py_in lang ["en"; "ar"]
    then Some ([Element "description" (Some (JStr (py_str v))) []], calls)
    else match translate_text text with
         | Some (translated, calls') =>
             Some ([Element "description" (Some (JScalar v)) [];
                    Element "description_translated" (Some translated) []],
                   calls ++ calls')
         | None => None
         end.
Proof.
  intros Hget Htrue Hdet.
  unfold Exporter.xml_item, get_truthy, dict_item. rewrite Hget, Htrue.
  cbv beta iota.
  change (py_in "description" ["owner"; "license"]) with false. cbv iota.
  rewrite String.eqb_refl. cbn [andb].
  rewrite bind_ret_l. rewrite (bind_some _ _ _ _ Hdet).
  destruct (py_in lang ["en"; "ar"]); cbn [negb].
  - unfold ret. rewrite app_nil_r. reflexivity.
  - rewrite bind_ret_l.
    destruct (translate_text text) as [[t c]|]; simpl; [|reflexivity].
    rewrite app_nil_r. reflexivity.
Qed.

(** What [save_to_xml] makes of an item when no enrichment applies. *)
Lemma xml_item_plain (translate : bool) (repo : record) (key : string) (value : json) :
  translate && get_truthy repo "description" = false \/ key <> "description" ->
  xml_item translate repo (key, value) =
    Some (match value with
          | JScalar v =>
              if py_in key ["owner"; "license"] then []
              else [Element key (Some (JStr (py_str v))) []]
          | _ => []
          end, []).
Proof.
  intros H. unfold Exporter.xml_item.
  destruct (py_in key ["owner"; "license"]); [destruct value as [v|l|d]; reflexivity|].
  destruct value as [v|l|d]; try reflexivity.
  destruct H as [H|H].
  - rewrite <- andb_assoc, H, andb_false_r. reflexivity.
  - apply String.eqb_neq in H. rewrite H. reflexivity.
Qed.

Lemma json_repo_plain (translate : bool) (repo : record) :
  translate && get_truthy repo "description" = false ->
  json_repo translate repo = Some (repo, []).
Proof. intros H. unfold Exporter.json_repo. rewrite H. reflexivity. Qed.

Lemma csv_row_plain (translate : bool) (repo : record) :
  translate && get_truthy repo "description" = false ->
  csv_row translate repo = csv_row false repo.
Proof.
  intros H. rewrite csv_row_split. rewrite H. apply bind_ret_r.
Qed.

Lemma dict_get_fields (g : string -> json) (l : list string) (field : string) :
  In field l -> dict_get (map (fun f => (f, g f)) l) field = Some (g field).
Proof.
  induction l as [|x l IH]; simpl; [tauto|].
  destruct (String.eqb_spec x field) as [->|Hne]; [reflexivity|].
  intros [E|Hin]; [contradiction|]. apply IH, Hin.
Qed.

Lemma dict_get_combine (g : string -> json) (l : list string) (field : string) :
  In field l -> dict_get (combine l (map g l)) field = Some (g field).
Proof.
  induction l as [|x l IH]; simpl; [tauto|].
  destruct (String.eqb_spec x field) as [->|Hne]; [reflexivity|].
  intros [E|Hin]; [contradiction|]. apply IH, Hin.
Qed.

Lemma csv_cell_writerow (row : list (string * json)) (field : string) :
  In field fieldnames ->
  csv_cell (writerow row) field = Some (dict_get_default row field (JStr "")).
Proof.
  intros Hin. unfold csv_cell, writerow.
  apply (dict_get_combine (fun f => dict_get_default row f (JStr ""))). exact Hin.
Qed.

(** The row of a record before enrichment: the projection, with the
    name of a non-empty license object. *)
Lemma csv_row_license (repo : record) (row : list (string * json)) (calls : list call) :
  csv_row false repo = Some (row, calls) ->
  let row0 :=
    map (fun field => (field, dict_get_default repo field (JStr ""))) fieldnames in
  (dict_mem repo "license" && get_truthy repo "license" = false /\ row = row0) \/
  (exists d,
      dict_get repo "license" = Some (JDict d) /\ truthy (JDict d) = true /\
      row = dict_set row0 "license" (dict_get_default d "name" (JStr ""))).
Proof.
  unfold Exporter.csv_row. cbn [andb]. rewrite bind_ret_r.
  destruct (dict_mem repo "license" && get_truthy repo "license") eqn:Hc.
  - unfold dict_item, get_truthy in *. rewrite andb_true_iff in Hc.
    destruct Hc as [_ Hc].
    destruct (dict_get repo "license") as [[v|l|d]|]; try discriminate;
      rewrite ?bind_ret_l; unfold raise, ret; try discriminate.
    intros H. inversion H; subst. right. exists d. auto.
  - intros H. inversion H; subst. left. auto.
Qed.

(** The enrichment of a row leaves it or sets [description_translated]. *)
Lemma csv_row_enrichment (translate : bool) (repo : record)
      (row : list (string * json)) (calls : list call) :
  csv_row translate repo = Some (row, calls) ->
  exists row1,
    csv_row false repo = Some (row1, []) /\
    ((translate && get_truthy repo "description" = false /\ row = row1) \/
     (translate && get_truthy repo "description" = true /\
      exists translated, row = dict_set row1 "description_translated" translated)).
Proof.
  rewrite csv_row_split. intros H.
  apply bind_inv in H. destruct H as (row1 & l1 & l2 & Hrow1 & H & _).
  pose proof (csv_row_quiet _ _ _ Hrow1). subst l1.
  exists row1. split; [exact Hrow1|].
  destruct (translate && get_truthy repo "description").
  - right. split; [reflexivity|].
    apply bind_inv in H. destruct H as (text & ? & ? & _ & H & _).
    apply bind_inv in H. destruct H as (lang & ? & ? & _ & H & _).
    destruct (negb (py_in lang ["en"; "ar"])).
    + apply bind_inv in H. destruct H as (text' & ? & ? & _ & H & _).
      apply bind_inv in H. destruct H as (translated & ? & ? & _ & H & _).
      inversion H; subst. eauto.
    + inversion H; subst. eauto.
  - left. inversion H; subst. auto.
Qed.

Lemma csv_cells_spec (translate : bool) (repo : record) (cells : list json)
      (calls : list call) :
  bind (csv_row translate repo) (fun row => ret (writerow row))
  = Some (cells, calls) ->
  length cells = 11%nat /\
  (forall field,
      In field fieldnames ->
      dict_get repo field = None ->
      field <> "description_translated"
      \/ translate && get_truthy repo "description" = false ->
      csv_cell cells field = Some (JStr "")) /\
  (forall x d,
      dict_get repo "license" = Some (JDict (x :: d)) ->
      csv_cell cells "license"
      = Some (dict_get_default (x :: d) "name" (JStr ""))).
Proof.
  intros H. apply bind_inv in H. destruct H as (row & l1 & l2 & Hrow & H & _).
  inversion H; subst cells; clear H.
  destruct (csv_row_enrichment _ _ _ _ Hrow) as (row1 & Hrow1 & Henrich).
  pose proof (csv_row_license _ _ _ Hrow1) as Hlic. cbv zeta in Hlic.
  split; [reflexivity|]. split.
  - intros field Hin Hmiss Hwhich.
    rewrite csv_cell_writerow by exact Hin.
    assert (Hbefore : dict_get row1 field = Some (JStr "")).
    { destruct Hlic as [[_ ->]|(d & Hd & _ & ->)].
      - rewrite dict_get_fields by exact Hin.
        unfold dict_get_default. rewrite Hmiss. reflexivity.
      - rewrite dict_get_set_other by (intros <-; congruence).
        rewrite dict_get_fields by exact Hin.
        unfold dict_get_default. rewrite Hmiss. reflexivity. }
    assert (Hafter : dict_get row field = Some (JStr "")).
    { destruct Henrich as [[_ ->]|[Hc (t & ->)]]; [exact Hbefore|].
      destruct Hwhich as [Hne|Hc']; [|congruence].
      rewrite dict_get_set_other by (intros <-; apply Hne; reflexivity).
      exact Hbefore. }
    unfold dict_get_default. rewrite Hafter. reflexivity.
  - intros x d Hget.
    rewrite csv_cell_writerow by (unfold fieldnames; simpl; tauto).
    assert (Hbefore : dict_get row1 "license"
                 = Some (dict_get_default (x :: d) "name" (JStr ""))).
    { destruct Hlic as [[Hc _]|(d' & Hd & _ & ->)].
      - unfold dict_mem, get_truthy in Hc. rewrite Hget in Hc. discriminate.
      - rewrite Hget in Hd. inversion Hd; subst d'.
        apply dict_get_set_same. }
    assert (Hafter : dict_get row "license"
                 = Some (dict_get_default (x :: d) "name" (JStr ""))).
    { destruct Henrich as [[_ ->]|[Hc (t & ->)]]; [exact Hbefore|].
      rewrite dict_get_set_other by discriminate. exact Hbefore. }
    unfold dict_get_default at 1. rewrite Hafter. reflexivity.
Qed.

(** C6, as the code has it. For every collection that is not empty
    (for an empty one nothing is written), an export that does not
    raise hands the writer the header of the eleven field names, in
    this order, and one row of eleven cells per record; a field the
    record lacks gives the empty string, [description_translated]
    apart when the enrichment fills it; a license object that is not
    empty gives its ['name'], the empty string when it has none; and
    the export with any other delimiter differs in the delimiter only. *)
Theorem csv_projection (translate : bool) (repo : record) (rest : list record)
        (delimiter : string) (result : option csv_file) (log : list call) :
  save_to_csv (repo :: rest) translate delimiter = Some (result, log) ->
  exists rows,
    result
    = Some (mkCsv delimiter
                  ["name"; "full_name"; "html_url"; "description";
                   "description_translated"; "stargazers_count";
                   "watchers_count"; "forks_count"; "language"; "license";
                   "updated_at"]
                  rows) /\
    Forall2
      (fun r cells =>
         length cells = 11%nat /\
         (forall field,
             In field fieldnames ->
             dict_get r field = None ->
             field <> "description_translated"
             \/ translate && get_truthy r "description" = false ->
             csv_cell cells field = Some (JStr "")) /\
         (forall x d,
             dict_get r "license" = Some (JDict (x :: d)) ->
             csv_cell cells "license"
             = Some (dict_get_default (x :: d) "name" (JStr ""))))
      (repo :: rest) rows /\
    forall delimiter',
      save_to_csv (repo :: rest) translate delimiter'
      = Some (Some (mkCsv delimiter' fieldnames rows), log).
Proof.
  unfold Exporter.save_to_csv. intros H.
  apply bind_inv in H. destruct H as (rows & l1 & l2 & Hrows & H & ->).
  inversion H; subst; clear H.
  exists rows. split; [reflexivity|]. split.
  - apply for_each_Forall2 in Hrows.
    eapply Forall2_impl; [|exact Hrows].
    intros r cells [calls Hr]. eapply csv_cells_spec. exact Hr.
  - intros delimiter'. rewrite Hrows. reflexivity.
Qed.

(** The ways an item of a record turns into sub-elements. *)
Lemma xml_item_cases (translate : bool) (repo : record) (key : string)
      (value : json) (els : list element) (calls : list call) :
  xml_item translate repo (key, value) = Some (els, calls) ->
  (els = [] /\ calls = [] /\
   (py_in key ["owner"; "license"] = true
    \/ (forall v, value <> JScalar v))) \/
  (exists v,
      value = JScalar v /\ py_in key ["owner"; "license"] = false /\
      els = [Element key (Some (JStr (py_str v))) []]) \/
  (exists v text lang translated c1 c2,
      value = JScalar v /\ key = "description" /\ translate = true /\
      dict_get repo "description" = Some text /\ truthy text = true /\
      detect_language text = Some (lang, c1) /\
      py_in lang ["en"; "ar"] = false /\
      translate_text text = Some (translated, c2) /\
      calls = c1 ++ c2 /\
      els = [Element "description" (Some value) [];
             Element "description_translated" (Some translated) []]).
Proof.
  unfold Exporter.xml_item.
  destruct (py_in key ["owner"; "license"]) eqn:Hskip.
  { intros H. inversion H; subst. left. auto. }
  destruct value as [v|l|d].
  2,3: intros H; inversion H; subst; left; split; [reflexivity|];
       split; [reflexivity|]; right; intros v; discriminate.
  destruct (String.eqb_spec key "description") as [->|Hkey]; cbn [andb].
  2:{ intros H. inversion H; subst. right; left. eauto. }
  destruct translate; cbn [andb].
  2:{ intros H. inversion H; subst. right; left. eauto. }
  unfold get_truthy, dict_item.
  destruct (dict_get repo "description") as [text|] eqn:Hget.
  2:{ intros H. inversion H; subst. right; left. eauto. }
  destruct (truthy text) eqn:Htrue.
  2:{ intros H. inversion H; subst. right; left. eauto. }
  rewrite bind_ret_l. intros H.
  apply bind_inv in H. destruct H as (lang & c1 & l2 & Hdet & H & ->).
  destruct (py_in lang ["en"; "ar"]) eqn:Hin; cbn [negb] in H.
  { inversion H; subst. right; left. eauto. }
  rewrite bind_ret_l in H.
  apply bind_inv in H. destruct H as (translated & c2 & l3 & Htr & H & ->).
  inversion H; subst. rewrite app_nil_r.
  right; right. exists v, text, lang, translated, c1, c2.
  repeat (split; [first [reflexivity|assumption]|]). reflexivity.
Qed.

Lemma xml_repository_children (translate : bool) (repo : record)
      (e : element) (calls : list call) :
  xml_repository translate repo = Some (e, calls) ->
  exists fields,
    for_each (xml_item translate repo) repo = Some (fields, calls) /\
    e = Element "repository" None (concat fields).
Proof.
  unfold Exporter.xml_repository. intros H.
  apply bind_inv in H. destruct H as (fields & l1 & l2 & Hf & H & ->).
  inversion H; subst. rewrite app_nil_r. eauto.
Qed.

(** Every sub-element of a [repository] element comes from an item. *)
Lemma xml_child_origin (translate : bool) (repo : record)
      (e : element) (calls : list call) (child : element) :
  xml_repository translate repo = Some (e, calls) ->
  In child (children_of e) ->
  exists key value els calls',
    In (key, value) repo /\
    xml_item translate repo (key, value) = Some (els, calls') /\
    In child els.
Proof.
  intros H Hin. apply xml_repository_children in H.
  destruct H as (fields & Hf & ->). simpl in Hin.
  apply in_concat in Hin. destruct Hin as (els & Hels & Hchild).
  destruct (for_each_In_inv _ _ _ _ _ Hf Hels) as ([key value] & calls' & Hkv & Hitem).
  exists key, value, els, calls'. auto.
Qed.

(** Every sub-element an item yields is in the [repository] element. *)
Lemma xml_item_children (translate : bool) (repo : record)
      (e : element) (calls : list call) (key : string) (value : json) :
  xml_repository translate repo = Some (e, calls) ->
  In (key, value) repo ->
  exists els calls',
    xml_item translate repo (key, value) = Some (els, calls') /\
    forall child, In child els -> In child (children_of e).
Proof.
  intros H Hin. apply xml_repository_children in H.
  destruct H as (fields & Hf & ->).
  destruct (for_each_In _ _ _ _ _ Hf Hin) as (els & calls' & Hitem & Hels).
  exists els, calls'. split; [exact Hitem|].
  intros child Hchild. simpl. apply in_concat. eauto.
Qed.

Lemma wf_dict_functional (d : list (string * json)) (key : string) (v w : json) :
  wf_dict d -> In (key, v) d -> In (key, w) d -> v = w.
Proof.
  intros Hwf Hv Hw.
  apply (In_dict_get _ _ _ Hwf) in Hv. apply (In_dict_get _ _ _ Hwf) in Hw.
  congruence.
Qed.

(** A tag outside the accepted set comes from [detect] on a [str]. *)
Lemma foreign_text_is_str (text : json) (lang : string) (calls : list call) :
  detect_language text = Some (lang, calls) ->
  py_in lang ["en"; "ar"] = false ->
  exists s, text = JStr s.
Proof.
  intros Hdet Hlang.
  destruct (detect_language_inv _ _ _ Hdet) as [(_ & -> & _)|(_ & s & -> & _)].
  - discriminate.
  - exists s. reflexivity.
Qed.

Lemma xml_item_total (repo : record) (text : json) (lang : string)
      (calls : list call) (kv : string * json) :
  dict_get repo "description" = Some text ->
  truthy text = true ->
  detect_language text = Some (lang, calls) ->
  exists r, xml_item true repo kv = Some r.
Proof.
  intros Hget Htrue Hdet. destruct kv as [key value].
  destruct value as [v|l|d].
  - destruct (String.eqb_spec key "description") as [->|Hkey].
    + rewrite (xml_item_described _ _ _ _ _ Hget Htrue Hdet).
      destruct (py_in lang ["en"; "ar"]); [eexists; reflexivity|].
      destruct (translate_text_total text) as (t & c & ->).
      eexists; reflexivity.
    + rewrite xml_item_plain by (right; exact Hkey). eexists; reflexivity.
  - unfold Exporter.xml_item.
    destruct (py_in key ["owner"; "license"]); eexists; reflexivity.
  - unfold Exporter.xml_item.
    destruct (py_in key ["owner"; "license"]); eexists; reflexivity.
Qed.

(** Nested values and enrichment in the XML export.  An item whose value is a
    [list] or a [dict] adds no sub-element and makes no call; a
    [repository] element has no [license] and no [owner] sub-element,
    and none for any other field holding a nested value; when the
    description of a record is classified outside the accepted set, the
    export of the record succeeds and its element has both a
    [description] sub-element with the original text and a
    [description_translated] sub-element with the translation; when it
    is classified inside the accepted set, the description adds the
    [description] sub-element only. *)
Theorem xml_skips_nested (translate : bool) (repo : record) :
  (forall key l, xml_item translate repo (key, JList l) = Some ([], [])) /\
  (forall key d, xml_item translate repo (key, JDict d) = Some ([], [])) /\
  (forall e calls,
      xml_repository translate repo = Some (e, calls) ->
      ~ In "license" (map tag_of (children_of e)) /\
      ~ In "owner" (map tag_of (children_of e)) /\
      (wf_dict repo ->
       forall key value,
         In (key, value) repo ->
         (forall v, value <> JScalar v) ->
         key <> "description_translated" ->
         ~ In key (map tag_of (children_of e)))) /\
  (forall text lang calls,
      dict_get repo "description" = Some text ->
      truthy text = true ->
      detect_language text = Some (lang, calls) ->
      py_in lang ["en"; "ar"] = false ->
      exists e calls' translated c2,
        xml_repository true repo = Some (e, calls') /\
        translate_text text = Some (translated, c2) /\
        In (Element "description" (Some text) []) (children_of e) /\
        In (Element "description_translated" (Some translated) [])
           (children_of e)) /\
  (forall v lang calls,
      dict_get repo "description" = Some (JScalar v) ->
      truthy (JScalar v) = true ->
      detect_language (JScalar v) = Some (lang, calls) ->
      py_in lang ["en"; "ar"] = true ->
      xml_item true repo ("description", JScalar v)
      = Some ([Element "description" (Some (JStr (py_str v))) []], calls)).
Proof.
  split; [|split; [|split; [|split]]].
  5:{ intros v lang calls Hget Htrue Hdet Hlang.
      rewrite (xml_item_described _ _ _ _ _ Hget Htrue Hdet), Hlang.
      reflexivity. }
  - intros key l. unfold Exporter.xml_item.
    destruct (py_in key ["owner"; "license"]); reflexivity.
  - intros key d. unfold Exporter.xml_item.
    destruct (py_in key ["owner"; "license"]); reflexivity.
  - intros e calls He.
    assert (Htags : forall child,
               In child (children_of e) ->
               tag_of child = "description_translated" \/
               exists v, In (tag_of child, JScalar v) repo /\
                         py_in (tag_of child) ["owner"; "license"] = false).
    { intros child Hchild.
      destruct (xml_child_origin _ _ _ _ _ He Hchild)
        as (key & value & els & calls' & Hkv & Hitem & Hels).
      destruct (xml_item_cases _ _ _ _ _ _ Hitem)
        as [(-> & _)|[(v & -> & Hskip & ->)
                     |(v & text & lang & t & c1 & c2 & -> & -> & _ & _ & _ & _
                       & _ & _ & _ & ->)]].
      - contradiction.
      - destruct Hels as [<-|[]]. right. exists v. auto.
      - destruct Hels as [<-|[<-|[]]]; [right|left; reflexivity].
        exists v. auto. }
    split; [|split].
    + intros Hin. apply in_map_iff in Hin. destruct Hin as (child & Htag & Hchild).
      destruct (Htags _ Hchild) as [E|(v & _ & Hskip)];
        rewrite Htag in *; discriminate.
    + intros Hin. apply in_map_iff in Hin. destruct Hin as (child & Htag & Hchild).
      destruct (Htags _ Hchild) as [E|(v & _ & Hskip)];
        rewrite Htag in *; discriminate.
    + intros Hwf key value Hkv Hnested Hkey Hin.
      apply in_map_iff in Hin. destruct Hin as (child & Htag & Hchild).
      destruct (Htags _ Hchild) as [E|(v & Hv & _)]; rewrite Htag in *.
      * contradiction.
      * apply (Hnested v). eapply wf_dict_functional; eassumption.
  - intros text lang calls Hget Htrue Hdet Hlang.
    destruct (foreign_text_is_str _ _ _ Hdet Hlang) as [s ->].
    destruct (for_each_total (xml_item true repo) repo) as [[fields calls'] Hf].
    { intros kv _. eapply xml_item_total; eassumption. }
    destruct (translate_text_total (JStr s)) as (translated & c2 & Htr).
    exists (Element "repository" None (concat fields)), calls', translated, c2.
    split; [unfold Exporter.xml_repository; rewrite Hf; simpl;
            rewrite app_nil_r; reflexivity|].
    split; [exact Htr|].
    destruct (for_each_In _ _ _ _ _ Hf (dict_get_In _ _ _ Hget))
      as (els & c & Hitem & Hels).
    unfold JStr in Hitem.
    rewrite (xml_item_described _ _ _ _ _ Hget Htrue Hdet), Hlang in Hitem.
    rewrite Htr in Hitem. inversion Hitem; subst.
    split; simpl; apply in_concat; eexists; (split; [exact Hels|]); simpl; auto.
Qed.

(** C10. In the XML export every scalar field of a record, [owner] and
    [license] apart, becomes a sub-element whose text is [str(value)],
    and every sub-element other than a [description_translated] is of
    that form; [str] turns the booleans into ["True"] and ["False"] and
    [None] into the four characters ["None"]. *)
Theorem xml_text_is_str (translate : bool) (repo : record) :
  wf_dict repo ->
  (exists e, xml_repository false repo = Some (e, [])) /\
  (forall e calls,
      xml_repository translate repo = Some (e, calls) ->
      (forall key v,
          In (key, JScalar v) repo ->
          py_in key ["owner"; "license"] = false ->
          In (Element key (Some (JStr (py_str v))) []) (children_of e)) /\
      (forall child,
          In child (children_of e) ->
          tag_of child = "description_translated" \/
          exists key v,
            In (key, JScalar v) repo /\
            child = Element key (Some (JStr (py_str v))) [])) /\
  py_str (SBool true) = "True" /\
  py_str (SBool false) = "False" /\
  py_str SNone = "None".
Proof.
  intros Hwf. split; [|split; [|repeat split]].
  - unfold Exporter.xml_repository.
    rewrite (for_each_quiet _
               (fun kv => match snd kv with
                          | JScalar v =>
                              if py_in (fst kv) ["owner"; "license"] then []
                              else [Element (fst kv) (Some (JStr (py_str v))) []]
                          | _ => []
                          end)).
    + eexists. reflexivity.
    + intros [key value] _. apply xml_item_plain. left. reflexivity.
  - intros e calls He. split.
    + intros key v Hkv Hskip.
      destruct (xml_item_children _ _ _ _ _ _ He Hkv) as (els & c & Hitem & Hels).
      apply Hels.
      destruct (xml_item_cases _ _ _ _ _ _ Hitem)
        as [(_ & _ & [Hs|Hn])|[(v' & Hv & _ & ->)
                     |(v' & text & lang & t & c1 & c2 & Hv & -> & _ & Hget & _
                       & Hdet & Hlang & _ & _ & ->)]].
      * congruence.
      * exfalso. apply (Hn v). reflexivity.
      * inversion Hv; subst. left. reflexivity.
      * destruct (foreign_text_is_str _ _ _ Hdet Hlang) as [s ->].
        apply dict_get_In in Hget.
        pose proof (wf_dict_functional _ _ _ _ Hwf Hkv Hget) as E.
        unfold JStr in E. inversion E; subst. left. reflexivity.
    + intros child Hchild.
      destruct (xml_child_origin _ _ _ _ _ He Hchild)
        as (key & value & els & calls' & Hkv & Hitem & Hels).
      destruct (xml_item_cases _ _ _ _ _ _ Hitem)
        as [(-> & _)|[(v & -> & Hskip & ->)
                     |(v & text & lang & t & c1 & c2 & -> & -> & _ & Hget & _
                       & Hdet & Hlang & _ & _ & ->)]].
      * contradiction.
      * destruct Hels as [<-|[]]. right. eauto.
      * destruct Hels as [<-|[<-|[]]]; [right|left; reflexivity].
        destruct (foreign_text_is_str _ _ _ Hdet Hlang) as [s ->].
        apply dict_get_In in Hget.
        pose proof (wf_dict_functional _ _ _ _ Hwf Hkv Hget) as E.
        unfold JStr in E. inversion E; subst.
        exists "description", (SStr s). split; [exact Hkv|reflexivity].
Qed.

(** The enrichment on the three paths.  With enrichment enabled and a truthy
    description whose classification yields [lang]: when [lang] is not
    one of ["en"], ["ar"], the JSON record and the CSV row get the
    translated text as [description_translated] and the XML element
    gets a [description_translated] sub-element with it; when [lang] is
    accepted, the JSON record and the CSV row get the empty string as
    [description_translated], while the XML export emits the
    [description] sub-element only.  A record without a truthy
    description is exported by all three without any call. *)
Theorem enrichment_by_format (repo : record) :
  (forall text lang calls,
      dict_get repo "description" = Some text ->
      truthy text = true ->
      detect_language text = Some (lang, calls) ->
      (py_in lang ["en"; "ar"] = false ->
       exists translated calls',
         translate_text text = Some (translated, calls') /\
         json_repo true repo
         = Some (dict_set repo "description_translated" translated,
                 calls ++ calls') /\
         (forall row,
             csv_row false repo = Some (row, []) ->
             csv_row true repo
             = Some (dict_set row "description_translated" translated,
                     calls ++ calls') /\
             csv_cell (writerow (dict_set row "description_translated" translated))
                      "description_translated"
             = Some translated) /\
         (forall v,
             text = JScalar v ->
             xml_item true repo ("description", text)
             = Some ([Element "description" (Some text) [];
                      Element "description_translated" (Some translated) []],
                     calls ++ calls'))) /\
      (py_in lang ["en"; "ar"] = true ->
       json_repo true repo
       = Some (dict_set repo "description_translated" (JStr ""), calls) /\
       (forall row,
           csv_row false repo = Some (row, []) ->
           csv_row true repo
           = Some (dict_set row "description_translated" (JStr ""), calls) /\
           csv_cell (writerow (dict_set row "description_translated" (JStr "")))
                    "description_translated"
           = Some (JStr "")) /\
       (forall v,
           text = JScalar v ->
           xml_item true repo ("description", text)
           = Some ([Element "description" (Some (JStr (py_str v))) []],
                   calls)))) /\
  (get_truthy repo "description" = false ->
   forall translate,
     json_repo translate repo = Some (repo, []) /\
     csv_row translate repo = csv_row false repo /\
     (forall row calls, csv_row false repo = Some (row, calls) -> calls = []) /\
     (forall key value,
         exists els, xml_item translate repo (key, value) = Some (els, []))).
Proof.
  assert (Hcell : forall row t,
             csv_cell (writerow (dict_set row "description_translated" t))
                      "description_translated" = Some t).
  { intros row t. rewrite csv_cell_writerow by (unfold fieldnames; simpl; tauto).
    unfold dict_get_default. rewrite dict_get_set_same. reflexivity. }
  split.
  - intros text lang calls Hget Htrue Hdet. split; intros Hlang.
    + destruct (translate_text_total text) as (translated & calls' & Htr).
      exists translated, calls'. split; [exact Htr|]. split; [|split].
      * rewrite (json_repo_described _ _ _ _ Hget Htrue Hdet), Hlang, Htr.
        reflexivity.
      * intros row Hrow. split; [|apply Hcell].
        rewrite (csv_row_described _ _ _ _ _ Hget Htrue Hdet Hrow), Hlang, Htr.
        reflexivity.
      * intros v ->.
        rewrite (xml_item_described _ _ _ _ _ Hget Htrue Hdet), Hlang, Htr.
        reflexivity.
    + split; [|split].
      * rewrite (json_repo_described _ _ _ _ Hget Htrue Hdet), Hlang.
        reflexivity.
      * intros row Hrow. split; [|apply Hcell].
        rewrite (csv_row_described _ _ _ _ _ Hget Htrue Hdet Hrow), Hlang.
        reflexivity.
      * intros v ->.
        rewrite (xml_item_described _ _ _ _ _ Hget Htrue Hdet), Hlang.
        reflexivity.
  - intros Hnone translate.
    assert (Hc : translate && get_truthy repo "description" = false)
      by (rewrite Hnone; apply andb_false_r).
    split; [apply json_repo_plain; exact Hc|].
    split; [apply csv_row_plain; exact Hc|].
    split; [intros row calls; apply csv_row_quiet|].
    intros key value. eexists. apply xml_item_plain. left. exact Hc.
Qed.

End ExporterFacts.

(* ================================================================== *)
(** ** The exporters on concrete records *)
(* ================================================================== *)

Section ExporterScenarios.

Import Py Exporter Scenarios.

Local Notation json_repo := (json_repo true detect_french to_english).
Local Notation xml_repository := (xml_repository true detect_french to_english).
Local Notation save_to_json := (save_to_json true detect_french to_english).
Local Notation save_to_csv := (save_to_csv true detect_french to_english).
Local Notation save_to_xml := (save_to_xml true detect_french to_english).

Lemma french_repo_wf : wf_dict french_repo.
Proof.
  unfold wf_dict, french_repo. simpl.
  repeat constructor; simpl; intuition discriminate.
Qed.

(** C5. Where the claim and the sibling paths agree, the XML path does
    not: for the record [english_repo], whose description is classified
    as English, [save_to_json] stores the empty string as
    [description_translated], and the tree of [save_to_xml] has no
    [description_translated] element at all. *)
Lemma xml_omits_empty_translation :
  save_to_json [english_repo] true
  = Some ([[("name", JStr "hello");
            ("description", JStr "hello world");
            ("license", JNone);
            ("description_translated", JStr "")]],
          [Detect "hello world"]) /\
  exists repository,
    save_to_xml [english_repo] true
    = Some (Element "repositories" None [repository], [Detect "hello world"]) /\
    ~ In "description_translated" (map tag_of (children_of repository)).
Proof.
  split; [reflexivity|].
  eexists. split; [reflexivity|].
  simpl. intros [H|[H|[]]]; discriminate.
Qed.

Lemma enrichment_by_format_witness :
  json_repo true french_repo
  = Some (dict_set french_repo "description_translated" (JStr "Hello world"),
          [Detect "Bonjour le monde"; Translate (JStr "Bonjour le monde")]).
Proof.
  destruct (proj1 (enrichment_by_format true detect_french to_english
                                        french_repo)
                  (JStr "Bonjour le monde") "fr" [Detect "Bonjour le monde"]
                  eq_refl eq_refl eq_refl) as [Hforeign _].
  destruct (Hforeign eq_refl) as (translated & calls' & Htr & Hjson & _).
  inversion Htr; subst. exact Hjson.
Defined.

(** C6, as stated, fails on the empty collection: neither export writes
    a header.  An empty license object is handed to the writer as it
    is. *)
Lemma csv_of_empty_collection :
  save_to_csv [] true "," = Some (None, []) /\
  save_to_csv [] true tab = Some (None, []) /\
  exists cells,
    save_to_csv [bare_repo] false ","
    = Some (Some (mkCsv "," fieldnames [cells]), []) /\
    csv_cell cells "license" = Some (JDict []).
Proof.
  split; [reflexivity|]. split; [reflexivity|].
  eexists. split; reflexivity.
Qed.

Lemma csv_projection_witness :
  exists rows,
    save_to_csv [french_repo; english_repo] true tab
    = Some (Some (mkCsv tab fieldnames rows),
            [Detect "Bonjour le monde"; Translate (JStr "Bonjour le monde");
             Detect "hello world"]).
Proof.
  destruct (csv_projection true detect_french to_english true
                           french_repo [english_repo] "," _ _ eq_refl)
    as (rows & _ & _ & Hother).
  exists rows. apply Hother.
Defined.

(** C7. Enrichment applies to the description of [english_repo]: it
    is classified (the call to [detect] is made), and the [repository]
    element gets a [description] sub-element and no
    [description_translated] sub-element. *)
Lemma xml_no_translation_child_when_accepted :
  exists e,
    xml_repository true english_repo = Some (e, [Detect "hello world"]) /\
    In "description" (map tag_of (children_of e)) /\
    ~ In "description_translated" (map tag_of (children_of e)).
Proof.
  eexists. split; [reflexivity|]. simpl. split; [tauto|].
  intros [H|[H|[]]]; discriminate.
Qed.

Lemma xml_skips_nested_witness :
  exists e calls,
    xml_repository true french_repo = Some (e, calls) /\
    In (Element "description" (Some (JStr "Bonjour le monde")) [])
       (children_of e) /\
    In (Element "description_translated" (Some (JStr "Hello world")) [])
       (children_of e).
Proof.
  destruct (proj1 (proj2 (proj2 (proj2
                     (xml_skips_nested true detect_french to_english
                                       true french_repo))))
                  (JStr "Bonjour le monde") "fr" [Detect "Bonjour le monde"]
                  eq_refl eq_refl eq_refl eq_refl)
    as (e & calls & translated & c2 & He & Htr & Hd & Ht).
  inversion Htr; subst. exists e, calls. auto.
Defined.

Lemma xml_text_is_str_witness :
  exists e,
    xml_repository false french_repo = Some (e, []) /\
    In (Element "private" (Some (JStr "False")) []) (children_of e) /\
    In (Element "homepage" (Some (JStr "None")) []) (children_of e) /\
    In (Element "stargazers_count" (Some (JStr "42")) []) (children_of e).
Proof.
  destruct (xml_text_is_str true detect_french to_english false french_repo
                            french_repo_wf) as ((e & He) & Hall & _).
  destruct (Hall e [] He) as [Hfields _].
  exists e. split; [exact He|].
  split; [|split].
  - apply (Hfields "private" (SBool false)); [simpl; tauto|reflexivity].
  - apply (Hfields "homepage" SNone); [simpl; tauto|reflexivity].
  - apply (Hfields "stargazers_count" (SInt 42)); [simpl; tauto|reflexivity].
Defined.

End ExporterScenarios.

(* ================================================================== *)
(** ** The pagination loop: requests, pages and time *)
(* ================================================================== *)

Section Requests.

Import Py Fetch Tally.

Context {item : Type}.
Variable session : fetcher item.
Variable num_results : Z.

Local Notation guard := (guard num_results).
Local Notation body := (body session).
Local Notation loop := (loop session num_results).
Local Notation reaches := (reaches session num_results).
Local Notation fetch_results := (fetch_results session num_results).

Lemma requests_app (l1 l2 : list (event item)) :
  requests (l1 ++ l2) = (requests l1 + requests l2)%nat.
Proof.
  induction l1 as [|[p o|s] l1 IH]; simpl; [reflexivity| |exact IH].
  rewrite IH. reflexivity.
Qed.

Lemma pages_fetched_app (l1 l2 : list (event item)) :
  pages_fetched (l1 ++ l2) = (pages_fetched l1 + pages_fetched l2)%nat.
Proof.
  induction l1 as [|[p [[|x items]|c|]|s] l1 IH]; simpl;
    rewrite ?IH; reflexivity.
Qed.

(** One round that goes on: what it adds to the log and to the state. *)
Lemma round_tally (st st' : state item) (evs : list (event item)) :
  body st = (evs, Some st') ->
  calls st' = S (calls st) /\
  requests evs = 1%nat /\
  page st' = page st + Z.of_nat (pages_fetched evs).
Proof.
  intros Hb.
  destruct (body_cases session st)
    as [[Ho E]|[[Ho E]|[(x & items & Ho & E)|[Ho E]]]];
    rewrite E in Hb; inversion Hb; subst; clear Hb; rewrite Ho; simpl.
  - repeat split. 
  - repeat split. lia.
Qed.

(** The state the loop is in tells what its log holds. *)
Lemma reaches_tally (st0 st : state item) (log : list (event item)) :
  reaches st0 log st ->
  calls st = (calls st0 + requests log)%nat /\
  page st = page st0 + Z.of_nat (pages_fetched log).
Proof.
  induction 1 as [|log st evs st' Hr [IHc IHp] Hg Hb].
  - simpl. split; lia.
  - destruct (round_tally _ _ _ Hb) as (Hc & Hq & Hp).
    rewrite requests_app, pages_fetched_app. split; lia.
Qed.

(** Every request of a run was made in a state the loop had reached. *)
Lemma request_state (fuel : nat) :
  forall (st : state item) r pre p o post,
    loop fuel st = Some (r, pre ++ Get p o :: post) ->
    exists st',
      reaches st pre st' /\ guard st' = true /\
      page st' = p /\ o = session (calls st') p.
Proof.
  induction fuel as [|fuel IH]; intros st r pre p o post H;
    destruct (guard st) eqn:Hg;
    try (rewrite loop_done in H by assumption; injection H as _ E;
         destruct pre; discriminate).
  - rewrite loop_out_of_fuel in H by assumption. discriminate.
  - rewrite loop_unfold in H by assumption.
    assert (Hhere : forall rest,
               Get (page st) (session (calls st) (page st)) :: rest
               = [] ++ Get p o :: post ->
               exists st',
                 reaches st [] st' /\ guard st' = true /\
                 page st' = p /\ o = session (calls st') p).
    { intros rest E'. simpl in E'. inversion E'; subst.
      exists st. split; [constructor|]. auto. }
    assert (Hlater : forall evs st1 pre',
               body st = (evs, Some st1) ->
               (exists st',
                   reaches st1 pre' st' /\ guard st' = true /\
                   page st' = p /\ o = session (calls st') p) ->
               exists st',
                 reaches st (evs ++ pre') st' /\ guard st' = true /\
                 page st' = p /\ o = session (calls st') p).
    { intros evs st1 pre' Hb (st' & Hr & Hs).
      exists st'. split; [|exact Hs].
      apply (reaches_trans session num_results st st1 st' evs pre');
        [|exact Hr].
      apply (reaches_next session num_results st [] st); [constructor|exact Hg|].
      exact Hb. }
    destruct (body_cases session st)
      as [[Ho Hb]|[[Ho Hb]|[(x & items & Ho & Hb)|[Ho Hb]]]];
      rewrite Hb in H.
    + injection H as _ E.
      destruct pre as [|a [|b pre]]; try discriminate.
      eapply Hhere. exact E.
    + injection H as _ E.
      destruct pre as [|a [|b pre]]; try discriminate.
      eapply Hhere. exact E.
    + destruct (Fetch.loop _ _ fuel _) as [[r' log']|] eqn:Hl; [|discriminate].
      injection H as _ E.
      destruct pre as [|a [|b pre]].
      * eapply Hhere. exact E.
      * simpl in E. inversion E.
      * simpl in E. injection E as Ea Eb Elog. subst a b log'.
        apply (Hlater _ _ pre Hb). eapply IH. exact Hl.
    + destruct (Fetch.loop _ _ fuel _) as [[r' log']|] eqn:Hl; [|discriminate].
      injection H as _ E.
      destruct pre as [|a [|b pre]].
      * eapply Hhere. exact E.
      * simpl in E. inversion E.
      * simpl in E. injection E as Ea Eb Elog. subst a b log'.
        apply (Hlater _ _ pre Hb). eapply IH. exact Hl.
Qed.

(** X1. In a run that returns, every request asks for page 1 plus the
    number of pages that were fetched with items before it, and the log
    records for it the answer of the remote end to the request of that
    rank. *)
Theorem requests_follow_the_pages (fuel : nat) (r : list item)
        (log pre post : list (event item)) (p : Z) (o : outcome item) :
  fetch_results fuel = Some (r, log) ->
  log = pre ++ Get p o :: post ->
  p = 1 + Z.of_nat (pages_fetched pre) /\
  o = session (requests pre) p.
Proof.
  intros H E. unfold Fetch.fetch_results in H.
  destruct (Fetch.loop _ _ fuel init) as [[r0 log0]|] eqn:Hl; [|discriminate].
  injection H as Hr0 Hlog. subst log0 log.
  destruct (request_state _ _ _ _ _ _ _ Hl) as (st & Hr & _ & Hp & Ho).
  destruct (reaches_tally _ _ _ Hr) as [Hc Hq].
  cbn [init calls page Nat.add] in Hc, Hq.
  split; [lia|]. rewrite Ho, Hc. reflexivity.
Qed.

(** X2. A request is made only while fewer than [num_results] records
    are held, and every record held when a request is made is in the
    list returned: no item of a page before the last fetched one is
    dropped. *)
Theorem requests_only_below_target (fuel : nat) (r : list item)
        (log pre post : list (event item)) (p : Z) (o : outcome item) :
  fetch_results fuel = Some (r, log) ->
  log = pre ++ Get p o :: post ->
  Z.of_nat (length (concat (fetched_pages pre))) < num_results /\
  exists kept, r = concat (fetched_pages pre) ++ kept.
Proof.
  intros H E. unfold Fetch.fetch_results in H.
  destruct (Fetch.loop _ _ fuel init) as [[r0 log0]|] eqn:Hl; [|discriminate].
  injection H as Hr0 Hlog. subst log0 log r.
  destruct (request_state _ _ _ _ _ _ _ Hl) as (st & Hr & Hg & _ & _).
  pose proof (reaches_results _ _ _ _ _ Hr) as Hres. simpl in Hres.
  apply guard_below in Hg. rewrite Hres in Hg.
  split; [exact Hg|].
  apply loop_results in Hl. simpl in Hl. subst r0.
  rewrite fetched_pages_app, concat_app.
  apply slice_to_app. lia.
Qed.

(** How a run leaves the loop: with the target met, or on a request
    that was answered with an empty page or a terminal failure. *)
Lemma loop_leaves (fuel : nat) :
  forall (st : state item) r log,
    loop fuel st = Some (r, log) ->
    num_results <= Z.of_nat (length r) \/
    exists pre p o,
      log = pre ++ [Get p o] /\ (o = Items [] \/ terminal o = true).
Proof.
  induction fuel as [|fuel IH]; intros st r log H;
    destruct (guard st) eqn:Hg;
    try (rewrite loop_done in H by assumption; injection H as <- _;
         left; unfold Fetch.guard in Hg; apply Z.ltb_ge in Hg; exact Hg).
  - rewrite loop_out_of_fuel in H by assumption. discriminate.
  - rewrite loop_unfold in H by assumption.
    destruct (body_cases session st)
      as [[Ho Hb]|[[Ho Hb]|[(x & items & Ho & Hb)|[Ho Hb]]]];
      rewrite Hb in H.
    + injection H as _ <-. right. exists [], (page st), (Items []).
      rewrite Ho. auto.
    + injection H as _ <-. right.
      exists [], (page st), (session (calls st) (page st)). auto.
    + destruct (Fetch.loop _ _ fuel _) as [[r' log']|] eqn:Hl; [|discriminate].
      injection H as <- <-.
      destruct (IH _ _ _ Hl) as [Hmet|(pre & p & o & -> & Hstop)];
        [left; exact Hmet|].
      right. eexists (_ :: _ :: pre), p, o.
      split; [reflexivity|exact Hstop].
    + destruct (Fetch.loop _ _ fuel _) as [[r' log']|] eqn:Hl; [|discriminate].
      injection H as <- <-.
      destruct (IH _ _ _ Hl) as [Hmet|(pre & p & o & -> & Hstop)];
        [left; exact Hmet|].
      right. eexists (_ :: _ :: pre), p, o.
      split; [reflexivity|exact Hstop].
Qed.

(** X3. For a target count [num_results >= 0], a run that returns
    fewer than [num_results] records ended on a request that was
    answered with an empty page or with a terminal failure; otherwise
    it returns exactly [num_results] records. *)
Theorem short_result_means_stopped (fuel : nat) (r : list item)
        (log : list (event item)) :
  0 <= num_results ->
  fetch_results fuel = Some (r, log) ->
  Z.of_nat (length r) = num_results \/
  (Z.of_nat (length r) < num_results /\
   exists pre p o,
     log = pre ++ [Get p o] /\ (o = Items [] \/ terminal o = true)).
Proof.
  intros Hn H. unfold Fetch.fetch_results in H.
  destruct (Fetch.loop _ _ fuel init) as [[r0 log0]|] eqn:Hl; [|discriminate].
  injection H as <- <-.
  rewrite slice_to_nonneg by exact Hn.
  destruct (Z_lt_le_dec (Z.of_nat (length r0)) num_results) as [Hlt|Hge].
  - right. rewrite firstn_all2 by lia. split; [exact Hlt|].
    destruct (loop_leaves _ _ _ _ Hl) as [Hmet|Hstop]; [lia|exact Hstop].
  - left. rewrite firstn_length_le by lia. lia.
Qed.

(** X4. When the remote end answers every request with a page that is
    not empty, [fetch_results] returns, and it returns exactly
    [num_results] records (for [num_results >= 0]). *)
Theorem full_pages_give_exact_count :
  0 <= num_results ->
  (forall n p, exists x items, session n p = Items (x :: items)) ->
  exists fuel r log,
    fetch_results fuel = Some (r, log) /\
    Z.of_nat (length r) = num_results.
Proof.
  intros Hn Hfull.
  assert (Hans : eventually_answers session).
  { intros p n. exists 0%nat. destruct (Hfull (n + 0)%nat p) as (x & items & ->).
    discriminate. }
  destruct (loop_terminates session num_results Hans _ init (le_n _))
    as (fuel & [r0 log] & Hl).
  exists fuel, (slice_to num_results r0), log.
  split; [unfold Fetch.fetch_results; rewrite Hl; reflexivity|].
  rewrite slice_to_nonneg by exact Hn.
  destruct (loop_leaves _ _ _ _ Hl) as [Hmet|(pre & p & o & -> & Hstop)].
  - rewrite firstn_length_le by lia. lia.
  - exfalso.
    destruct (request_state _ _ _ _ _ _ _ Hl) as (st & _ & _ & _ & Ho).
    destruct (Hfull (calls st) p) as (x & items & E). rewrite E in Ho.
    subst o. destruct Hstop; discriminate.
Qed.

Lemma paced_sleep (log : list (event item)) :
  paced item log ->
  total_sleep log
  = Z.of_nat (pages_fetched log) + 60 * Z.of_nat (rate_limited log).
Proof.
  induction 1 as [|p|p o Ht|p x items rest Hp IH|p o rest Hp IH].
  - reflexivity.
  - reflexivity.
  - destruct o as [items|c|]; try discriminate; simpl.
    + simpl in Ht. apply negb_true_iff in Ht. rewrite Ht. reflexivity.
    + reflexivity.
  - cbn [total_sleep pages_fetched rate_limited]. rewrite IH. lia.
  - change (total_sleep (Get p (HTTPError 403) :: Sleep 60 :: Get p o :: rest))
      with (60 + total_sleep (Get p o :: rest)).
    change (pages_fetched (Get p (HTTPError 403) :: Sleep 60 :: Get p o :: rest))
      with (pages_fetched (Get p o :: rest)).
    change (rate_limited (Get p (HTTPError 403) :: Sleep 60 :: Get p o :: rest))
      with (S (rate_limited (Get p o :: rest))).
    rewrite IH. lia.
Qed.

(** Every page fetched with items uses up some of what is left to the
    target. *)
Lemma loop_pages_bound (fuel : nat) :
  forall (st : state item) r log,
    loop fuel st = Some (r, log) ->
    (pages_fetched log
     <= Z.to_nat (num_results - Z.of_nat (length (results st))))%nat.
Proof.
  induction fuel as [|fuel IH]; intros st r log H;
    destruct (guard st) eqn:Hg;
    try (rewrite loop_done in H by assumption; injection H as _ <-;
         simpl; lia).
  - rewrite loop_out_of_fuel in H by assumption. discriminate.
  - rewrite loop_unfold in H by assumption.
    pose proof (guard_below _ _ Hg) as Hlt.
    destruct (body_cases session st)
      as [[Ho Hb]|[[Ho Hb]|[(x & items & Ho & Hb)|[Ho Hb]]]];
      rewrite Hb in H.
    + injection H as _ <-. rewrite Ho. simpl. lia.
    + injection H as _ <-.
      destruct (session (calls st) (page st)) as [its|c|]; try discriminate;
        simpl; lia.
    + destruct (Fetch.loop _ _ fuel _) as [[r' log']|] eqn:Hl; [|discriminate].
      injection H as _ <-. apply IH in Hl. rewrite Ho.
      cbn [app pages_fetched results] in *.
      rewrite length_app in Hl. simpl in Hl. lia.
    + destruct (Fetch.loop _ _ fuel _) as [[r' log']|] eqn:Hl; [|discriminate].
      injection H as _ <-. apply IH in Hl. rewrite Ho.
      cbn [app pages_fetched results] in *. exact Hl.
Qed.

(** X5. In a run that returns, the time slept is one unit for every
    page fetched with items and sixty for every request answered with
    status 403; and at most [num_results] pages are fetched with
    items. *)
Theorem sleep_accounting (fuel : nat) (r : list item)
        (log : list (event item)) :
  fetch_results fuel = Some (r, log) ->
  total_sleep log
  = Z.of_nat (pages_fetched log) + 60 * Z.of_nat (rate_limited log) /\
  Z.of_nat (pages_fetched log) <= Z.max 0 num_results.
Proof.
  intros H. unfold Fetch.fetch_results in H.
  destruct (Fetch.loop _ _ fuel init) as [[r0 log0]|] eqn:Hl; [|discriminate].
  injection H as _ <-. split.
  - apply paced_sleep. eapply loop_paced. exact Hl.
  - apply loop_pages_bound in Hl. simpl in Hl. lia.
Qed.

(** X6. A run that returns made no request exactly when the target
    count is not positive. *)
Theorem no_request_iff_no_target (fuel : nat) (r : list item)
        (log : list (event item)) :
  fetch_results fuel = Some (r, log) ->
  (log = [] <-> num_results <= 0).
Proof.
  intros H. split.
  - intros ->. unfold Fetch.fetch_results in H.
    destruct (Fetch.loop _ _ fuel init) as [[r0 log0]|] eqn:Hl; [|discriminate].
    injection H as _ ->.
    destruct (guard (@init item)) eqn:Hg.
    + destruct (loop_first_event _ _ _ _ _ _ Hg Hl) as [rest E]. discriminate.
    + unfold Fetch.guard in Hg. simpl in Hg. apply Z.ltb_ge in Hg. exact Hg.
  - intros Hn. rewrite (fetch_results_no_target _ _ fuel Hn) in H.
    injection H as _ <-. reflexivity.
Qed.

End Requests.

(* ================================================================== *)
(** ** The exporters: what they keep, when they raise *)
(* ================================================================== *)

Section DictUpdates.

Import Py.

Lemma dict_set_keys (d : list (string * json)) (key : string) (v : json) :
  map fst (dict_set d key v)
  = if dict_mem d key then map fst d else map fst d ++ [key].
Proof.
  unfold dict_mem. induction d as [|[k w] d IH]; simpl; [reflexivity|].
  destruct (String.eqb k key) eqn:E; simpl; [reflexivity|].
  rewrite IH. destruct (dict_get d key); reflexivity.
Qed.

Lemma dict_mem_In (d : list (string * json)) (key : string) :
  dict_mem d key = false -> ~ In key (map fst d).
Proof.
  unfold dict_mem. induction d as [|[k w] d IH]; simpl; [tauto|].
  destruct (String.eqb_spec k key) as [->|Hne]; [discriminate|].
  intros H [E|Hin]; [contradiction|]. exact (IH H Hin).
Qed.

Lemma dict_set_wf (d : list (string * json)) (key : string) (v : json) :
  wf_dict d -> wf_dict (dict_set d key v).
Proof.
  unfold wf_dict. intros Hwf. rewrite dict_set_keys.
  destruct (dict_mem d key) eqn:Hm; [exact Hwf|].
  apply dict_mem_In in Hm.
  apply NoDup_app; [exact Hwf|repeat constructor; simpl; tauto|].
  intros k Hk [<-|[]]. exact (Hm Hk).
Qed.

Lemma dict_set_twice (d : list (string * json)) (key : string) (v w : json) :
  dict_set (dict_set d key v) key w = dict_set d key w.
Proof.
  induction d as [|[k u] d IH]; simpl.
  - rewrite String.eqb_refl. reflexivity.
  - destruct (String.eqb k key) eqn:E; simpl; rewrite E; [reflexivity|].
    rewrite IH. reflexivity.
Qed.

End DictUpdates.

Section LoopsOverRecords.

Import Py Exporter.

Lemma for_each_ext {A B : Type} (f g : A -> M B) (l : list A) :
  (forall x, In x l -> f x = g x) -> for_each f l = for_each g l.
Proof.
  induction l as [|x l IH]; simpl; intros H; [reflexivity|].
  rewrite (H x) by (left; reflexivity).
  rewrite IH by (intros y Hy; apply H; right; exact Hy). reflexivity.
Qed.

(** A loop raises exactly when one of its rounds does. *)
Lemma for_each_raises {A B : Type} (f : A -> M B) (l : list A) :
  for_each f l = None <-> exists x, In x l /\ f x = None.
Proof.
  split.
  - intros H. destruct (for_each f l) as [r|] eqn:E; [discriminate|].
    clear H. induction l as [|x l IH]; simpl in E; [discriminate|].
    destruct (f x) as [[y lx]|] eqn:Hx.
    + destruct (for_each f l) as [[ys ll]|] eqn:Hl; [discriminate|].
      destruct (IH eq_refl) as (z & Hz & Hf). exists z. split; [right|]; assumption.
    + exists x. split; [left; reflexivity|exact Hx].
  - intros (x & Hin & Hx).
    destruct (for_each f l) as [[ys log]|] eqn:E; [|reflexivity].
    destruct (for_each_In _ _ _ _ _ E Hin) as (y & calls & Hy & _). congruence.
Qed.

Lemma for_each_length {A B : Type} (f : A -> M B) (l : list A) ys log :
  for_each f l = Some (ys, log) -> length ys = length l.
Proof.
  intros H. apply for_each_Forall2 in H. symmetry.
  eapply Forall2_length. exact H.
Qed.

(** A loop whose rounds make no call makes none. *)
Lemma for_each_no_call {A B : Type} (f : A -> M B) (l : list A) :
  (forall x y calls, f x = Some (y, calls) -> calls = []) ->
  forall ys log, for_each f l = Some (ys, log) -> log = [].
Proof.
  intros Hf. induction l as [|x l IH]; simpl; intros ys log H.
  - injection H as _ E. symmetry. exact E.
  - apply bind_inv in H. destruct H as (y & c1 & c2 & Hx & H & E).
    apply bind_inv in H. destruct H as (ys' & c3 & c4 & Hl & H & E').
    injection H as _ E''. subst.
    rewrite (Hf _ _ _ Hx), (IH _ _ Hl). reflexivity.
Qed.

End LoopsOverRecords.

Section ExporterMore.

Import Py Exporter.

Variable TRANSLATION_AVAILABLE : bool.
Variable detect : string -> option string.
Variable libretranslate : json -> option json.

Local Notation translate_text :=
  (translate_text TRANSLATION_AVAILABLE libretranslate).
Local Notation detect_language :=
  (detect_language TRANSLATION_AVAILABLE detect).
Local Notation json_repo :=
  (json_repo TRANSLATION_AVAILABLE detect libretranslate).
Local Notation csv_row :=
  (csv_row TRANSLATION_AVAILABLE detect libretranslate).
Local Notation xml_item :=
  (xml_item TRANSLATION_AVAILABLE detect libretranslate).
Local Notation xml_repository :=
  (xml_repository TRANSLATION_AVAILABLE detect libretranslate).
Local Notation save_to_json :=
  (save_to_json TRANSLATION_AVAILABLE detect libretranslate).
Local Notation save_to_csv :=
  (save_to_csv TRANSLATION_AVAILABLE detect libretranslate).
Local Notation save_to_xml :=
  (save_to_xml TRANSLATION_AVAILABLE detect libretranslate).

(** What one round of [save_to_json] does to a record. *)
Lemma json_repo_result (translate : bool) (repo repo' : record)
      (calls : list call) :
  json_repo translate repo = Some (repo', calls) ->
  (translate && get_truthy repo "description" = false /\
   repo' = repo /\ calls = []) \/
  (translate && get_truthy repo "description" = true /\
   exists text lang c1,
     dict_get repo "description" = Some text /\
     detect_language text = Some (lang, c1) /\
     ((py_in lang ["en"; "ar"] = true /\
       repo' = dict_set repo "description_translated" (JStr "") /\
       calls = c1) \/
      (py_in lang ["en"; "ar"] = false /\
       exists translated c2,
         translate_text text = Some (translated, c2) /\
         repo' = dict_set repo "description_translated" translated /\
         calls = c1 ++ c2))).
Proof.
  unfold Exporter.json_repo.
  destruct (translate && get_truthy repo "description") eqn:Hc.
  2:{ intros H. injection H as <- <-. left. auto. }
  intros H. right. split; [reflexivity|].
  unfold dict_item in H.
  destruct (dict_get repo "description") as [text|] eqn:Hget;
    [|discriminate].
  rewrite bind_ret_l in H.
  apply bind_inv in H. destruct H as (lang & c1 & l2 & Hdet & H & ->).
  exists text, lang, c1. split; [reflexivity|]. split; [exact Hdet|].
  destruct (py_in lang ["en"; "ar"]) eqn:Hlang; cbn [negb] in H.
  - injection H as <- <-. left. rewrite app_nil_r. auto.
  - rewrite bind_ret_l in H.
    apply bind_inv in H. destruct H as (t & c2 & l3 & Htr & H & ->).
    injection H as <- <-. right. split; [reflexivity|].
    exists t, c2. rewrite app_nil_r. auto.
Qed.

(** X8. An export to JSON that does not raise keeps the number and
    the order of the records; in every record it keeps every field
    other than [description_translated] with its value, keeps the keys
    in their positions (a new [description_translated] goes last), and
    keeps the keys distinct. *)
Theorem save_to_json_keeps_fields (data out : list record) (translate : bool)
        (calls : list call) :
  save_to_json data translate = Some (out, calls) ->
  length out = length data /\
  Forall2
    (fun repo repo' =>
       (forall key,
           key <> "description_translated" ->
           dict_get repo' key = dict_get repo key) /\
       (map fst repo' = map fst repo \/
        (dict_mem repo "description_translated" = false /\
         map fst repo' = map fst repo ++ ["description_translated"])) /\
       (wf_dict repo -> wf_dict repo'))
    data out.
Proof.
  unfold Exporter.save_to_json. intros H.
  split; [eapply for_each_length; exact H|].
  apply for_each_Forall2 in H.
  eapply Forall2_impl; [|exact H].
  intros repo repo' [c Hr].
  assert (Hshape : repo' = repo \/
                   exists t, repo' = dict_set repo "description_translated" t).
  { destruct (json_repo_result _ _ _ _ Hr)
      as [(_ & -> & _)|(_ & text & lang & c1 & _ & _ &
                        [(_ & -> & _)|(_ & t & c2 & _ & -> & _)])]; eauto. }
  destruct Hshape as [->|[t ->]].
  - repeat split; auto.
  - split; [|split].
    + intros key Hkey. apply dict_get_set_other.
      intros E. apply Hkey. symmetry. exact E.
    + rewrite dict_set_keys.
      destruct (dict_mem repo "description_translated"); auto.
    + apply dict_set_wf.
Qed.

(** X9. Exporting to JSON what an export to JSON produced gives the
    same records again, with the same calls. *)
Theorem save_to_json_idempotent (data out : list record) (translate : bool)
        (calls : list call) :
  save_to_json data translate = Some (out, calls) ->
  save_to_json out translate = Some (out, calls).
Proof.
  unfold Exporter.save_to_json.
  revert out calls. induction data as [|repo data IH]; simpl; intros out calls H.
  - injection H as <- <-. reflexivity.
  - apply bind_inv in H. destruct H as (repo' & c1 & l2 & Hr & H & ->).
    apply bind_inv in H. destruct H as (out' & c2 & l3 & Hd & H & ->).
    injection H as <- <-. simpl.
    assert (Hagain : json_repo translate repo' = Some (repo', c1)).
    { destruct (json_repo_result _ _ _ _ Hr)
        as [(Hc & -> & ->)|(Hc & text & lang & c & Hget & Hdet & Hcase)].
      - rewrite Hr. reflexivity.
      - apply andb_true_iff in Hc. destruct Hc as [-> Htrue].
        unfold get_truthy in Htrue. rewrite Hget in Htrue.
        destruct Hcase as [(Hlang & -> & ->)|(Hlang & t & c2' & Htr & -> & ->)].
        + rewrite (json_repo_described _ _ _ _ text lang c); auto.
          * rewrite Hlang, dict_set_twice. reflexivity.
          * rewrite dict_get_set_other by discriminate. exact Hget.
        + rewrite (json_repo_described _ _ _ _ text lang c); auto.
          * rewrite Hlang, Htr, dict_set_twice. reflexivity.
          * rewrite dict_get_set_other by discriminate. exact Hget. }
    rewrite Hagain. simpl. rewrite (IH _ _ Hd). reflexivity.
Qed.

(** When the classification of a description raises. *)
Lemma detect_language_raises (text : json) :
  detect_language text = None <->
  TRANSLATION_AVAILABLE = true /\
  forall s, text = JStr s -> detect s = None.
Proof.
  unfold Exporter.detect_language, bind, emit, ret, raise.
  destruct TRANSLATION_AVAILABLE.
  - destruct text as [[| | |s]| |]; simpl;
      try (split; [intros _; split; [reflexivity|intros s E; discriminate]
                  |reflexivity]).
    destruct (detect s) as [l|] eqn:E; split.
    + discriminate.
    + intros [_ H]. specialize (H s eq_refl). congruence.
    + intros _. split; [reflexivity|]. intros s' E'.
      unfold JStr in E'. injection E' as <-. exact E.
    + reflexivity.
  - split; [discriminate|]. intros [H _]. discriminate.
Qed.

Lemma json_repo_raises (translate : bool) (repo : record) :
  json_repo translate repo = None <->
  translate = true /\
  exists text,
    dict_get repo "description" = Some text /\ truthy text = true /\
    detect_language text = None.
Proof.
  unfold Exporter.json_repo, get_truthy, dict_item.
  destruct translate; cbn [andb].
  2:{ split; [discriminate|]. intros [H _]. discriminate. }
  destruct (dict_get repo "description") as [text|] eqn:Hget.
  2:{ split; [discriminate|]. intros (_ & text & E & _). discriminate. }
  destruct (truthy text) eqn:Htrue.
  2:{ split; [discriminate|]. intros (_ & text' & E & Ht & _).
      injection E as <-. congruence. }
  rewrite bind_ret_l.
  destruct (detect_language text) as [[lang c]|] eqn:Hdet.
  - rewrite (bind_some _ _ _ _ eq_refl).
    split.
    + destruct (py_in lang ["en"; "ar"]); cbn [negb]; [discriminate|].
      rewrite bind_ret_l.
      destruct (translate_text_total TRANSLATION_AVAILABLE libretranslate text)
        as (t & c2 & ->). discriminate.
    + intros (_ & text' & E & _ & Hnone). injection E as <-. congruence.
  - split; [|reflexivity]. intros _. split; [reflexivity|].
    exists text. auto.
Qed.

Lemma save_to_json_plain (data : list record) :
  save_to_json data false = Some (data, []).
Proof.
  unfold Exporter.save_to_json.
  rewrite (for_each_quiet _ (fun repo => repo)); [rewrite map_id; reflexivity|].
  reflexivity.
Qed.

Lemma save_to_xml_plain (data : list record) :
  exists root, save_to_xml data false = Some (root, []).
Proof.
  unfold Exporter.save_to_xml.
  assert (Hrepo : forall repo,
             exists e, xml_repository false repo = Some (e, [])).
  { intros repo. unfold Exporter.xml_repository.
    rewrite (for_each_quiet _
               (fun kv => match snd kv with
                          | JScalar v =>
                              if py_in (fst kv) ["owner"; "license"] then []
                              else [Element (fst kv)
                                            (Some (JStr (py_str v))) []]
                          | _ => []
                          end)).
    - eexists. reflexivity.
    - intros [key value] _. apply xml_item_plain. left. reflexivity. }
  destruct (for_each_total (xml_repository false) data) as [[es l] Hes].
  { intros repo _. destruct (Hrepo repo) as [e He]. eexists. exact He. }
  rewrite Hes.
  apply for_each_no_call in Hes.
  + subst l. eexists. reflexivity.
  + intros repo e c He. destruct (Hrepo repo) as [e' He']. congruence.
Qed.

(** X11. With [translate] off no exporter calls [detect] or the
    translation service before it writes: the loop of [save_to_json]
    leaves every record as it is, [save_to_xml] builds its tree without
    raising, and a [save_to_csv] whose rows are all built made no
    call. *)
Theorem exports_without_translation (data : list record) :
  save_to_json data false = Some (data, []) /\
  (exists root, save_to_xml data false = Some (root, [])) /\
  (forall delimiter file calls,
      save_to_csv data false delimiter = Some (file, calls) -> calls = []).
Proof.
  split; [|split].
  - apply save_to_json_plain.
  - apply save_to_xml_plain.
  - intros delimiter file calls. unfold Exporter.save_to_csv.
    destruct data as [|repo rest]; [intros H; injection H as _ <-; reflexivity|].
    intros H. apply bind_inv in H. destruct H as (rows & l1 & l2 & Hrows & H & E).
    injection H as _ E'. subst.
    apply for_each_no_call in Hrows; [rewrite Hrows; reflexivity|].
    intros x y c Hx.
    apply bind_inv in Hx. destruct Hx as (row & c5 & c6 & Hrow & Hx & E).
    injection Hx as _ E'. subst.
    apply csv_row_quiet in Hrow. rewrite Hrow. reflexivity.
Qed.

(** X12. Without [langdetect], enrichment calls nothing and does not
    raise: the export to JSON sets [description_translated] to the
    empty string in every record with a truthy description and leaves
    the others as they are, and the export to XML is the one made with
    [translate] off. *)
Theorem enrichment_without_langdetect (data : list record) :
  TRANSLATION_AVAILABLE = false ->
  save_to_json data true
  = Some (map (fun repo =>
                 if get_truthy repo "description"
                 then dict_set repo "description_translated" (JStr "")
                 else repo) data, []) /\
  save_to_xml data true = save_to_xml data false.
Proof.
  intros Hoff.
  assert (Hdet : forall text, detect_language text = Some ("en", [])).
  { intros text. unfold Exporter.detect_language. rewrite Hoff. reflexivity. }
  split.
  - unfold Exporter.save_to_json. apply for_each_quiet.
    intros repo _. unfold Exporter.json_repo, get_truthy, dict_item.
    cbn [andb].
    destruct (dict_get repo "description") as [text|]; [|reflexivity].
    destruct (truthy text); [|reflexivity].
    rewrite bind_ret_l, (bind_some _ _ _ _ (Hdet text)). reflexivity.
  - unfold Exporter.save_to_xml. f_equal.
    apply for_each_ext. intros repo _.
    unfold Exporter.xml_repository. f_equal.
    apply for_each_ext. intros [key value] _.
    rewrite (xml_item_plain _ _ _ false) by (left; reflexivity).
    unfold Exporter.xml_item.
    destruct (py_in key ["owner"; "license"]);
      [destruct value; reflexivity|].
    destruct value as [v|l|d]; try reflexivity.
    destruct (String.eqb key "description"); cbn [andb]; [|reflexivity].
    unfold get_truthy, dict_item.
    destruct (dict_get repo "description") as [text|]; [|reflexivity].
    destruct (truthy text); [|reflexivity].
    rewrite bind_ret_l, (bind_some _ _ _ _ (Hdet text)). reflexivity.
Qed.

(** X13. In an export to CSV or TSV that does not raise, a field of
    the projection that a record holds reaches the writer with the
    value it has in the record: every field other than [license] and
    [description_translated]; a [license] that is falsy ([None], an
    empty object); and [description_translated] when enrichment does
    not apply to the record. *)
Theorem csv_passes_values (translate : bool) (data : list record)
        (delimiter : string) (file : csv_file) (calls : list call) :
  save_to_csv data translate delimiter = Some (Some file, calls) ->
  Forall2
    (fun repo cells =>
       (forall field v,
           In field fieldnames ->
           field <> "license" ->
           field <> "description_translated" ->
           dict_get repo field = Some v ->
           csv_cell cells field = Some v) /\
       (forall v,
           dict_get repo "license" = Some v ->
           truthy v = false ->
           csv_cell cells "license" = Some v) /\
       (translate && get_truthy repo "description" = false ->
        forall v,
          dict_get repo "description_translated" = Some v ->
          csv_cell cells "description_translated" = Some v))
    data (csv_rows file).
Proof.
  unfold Exporter.save_to_csv. destruct data as [|repo0 rest]; [discriminate|].
  intros H. apply bind_inv in H. destruct H as (rows & l1 & l2 & Hrows & H & _).
  injection H as <- _. simpl.
  apply for_each_Forall2 in Hrows.
  eapply Forall2_impl; [|exact Hrows].
  intros repo cells [c Hr].
  apply bind_inv in Hr. destruct Hr as (row & c1 & c2 & Hrow & Hr & _).
  injection Hr as <- _.
  destruct (csv_row_enrichment _ _ _ _ _ _ _ Hrow) as (row1 & Hrow1 & Henrich).
  pose proof (csv_row_license _ _ _ _ _ _ Hrow1) as Hlic. cbv zeta in Hlic.
  assert (Hfield : forall field v,
             In field fieldnames ->
             dict_get repo field = Some v ->
             field <> "license"
             \/ dict_mem repo "license" && get_truthy repo "license" = false ->
             dict_get row1 field = Some v).
  { intros field v Hin Hget Hwhich.
    destruct Hlic as [[_ ->]|(d & Hd & Hdt & ->)].
    - rewrite (dict_get_fields detect) by exact Hin.
      unfold dict_get_default. rewrite Hget. reflexivity.
    - destruct Hwhich as [Hne|Hc].
      + rewrite dict_get_set_other
          by (intros E; apply Hne; symmetry; exact E).
        rewrite (dict_get_fields detect) by exact Hin.
        unfold dict_get_default. rewrite Hget. reflexivity.
      + unfold dict_mem, get_truthy in Hc. rewrite Hd, Hdt in Hc.
        discriminate. }
  assert (Hcell : forall field v,
             In field fieldnames ->
             dict_get row1 field = Some v ->
             field <> "description_translated"
             \/ translate && get_truthy repo "description" = false ->
             csv_cell (writerow row) field = Some v).
  { intros field v Hin Hget Hwhich.
    rewrite (csv_cell_writerow detect) by exact Hin. unfold dict_get_default.
    destruct Henrich as [[_ ->]|[Hc (t & ->)]]; [rewrite Hget; reflexivity|].
    destruct Hwhich as [Hne|Hc']; [|congruence].
    rewrite dict_get_set_other by (intros E; apply Hne; symmetry; exact E).
    rewrite Hget. reflexivity. }
  split; [|split].
  - intros field v Hin Hl Ht Hget.
    apply Hcell; [exact Hin| |left; exact Ht].
    apply Hfield; [exact Hin|exact Hget|left; exact Hl].
  - intros v Hget Hfalsy.
    assert (Hin : In "license" fieldnames) by (unfold fieldnames; simpl; tauto).
    apply Hcell; [exact Hin| |left; discriminate].
    apply Hfield; [exact Hin|exact Hget|right].
    unfold get_truthy. rewrite Hget, Hfalsy. apply andb_false_r.
  - intros Hc v Hget.
    assert (Hin : In "description_translated" fieldnames)
      by (unfold fieldnames; simpl; tauto).
    apply Hcell; [exact Hin| |right; exact Hc].
    apply Hfield; [exact Hin|exact Hget|left; discriminate].
Qed.

(** When the row of a record cannot be built. *)
Lemma csv_row_raises (translate : bool) (repo : record) :
  csv_row translate repo = None <->
  (exists v,
      dict_get repo "license" = Some v /\ truthy v = true /\
      forall d, v <> JDict d) \/
  json_repo translate repo = None.
Proof.
  assert (Hplain : csv_row false repo = None <->
                   exists v,
                     dict_get repo "license" = Some v /\ truthy v = true /\
                     forall d, v <> JDict d).
  { unfold Exporter.csv_row. cbn [andb]. rewrite bind_ret_r.
    unfold dict_mem, get_truthy, dict_item.
    destruct (dict_get repo "license") as [v|] eqn:Hget; cbn [andb].
    2:{ split; [discriminate|]. intros (v & E & _). discriminate. }
    destruct (truthy v) eqn:Htrue.
    2:{ split; [discriminate|]. intros (w & E & Hw & _).
        injection E as <-. congruence. }
    rewrite bind_ret_l.
    destruct v as [s|l|d].
    - split; [|reflexivity]. intros _. exists (JScalar s).
      split; [reflexivity|]. split; [exact Htrue|]. discriminate.
    - split; [|reflexivity]. intros _. exists (JList l).
      split; [reflexivity|]. split; [exact Htrue|]. discriminate.
    - split; [discriminate|]. intros (w & E & _ & Hw).
      injection E as <-. exfalso. apply (Hw d). reflexivity. }
  rewrite <- Hplain. rewrite csv_row_split.
  destruct (csv_row false repo) as [[row1 c1]|] eqn:Hrow.
  2:{ split; [left; reflexivity|reflexivity]. }
  rewrite (bind_some _ _ _ _ eq_refl).
  split.
  - intros H. right.
    destruct (json_repo translate repo) as [[repo' c]|] eqn:Hj; [|reflexivity].
    exfalso.
    destruct (json_repo_result _ _ _ _ Hj)
      as [(Hc & _)|(Hc & text & lang & c0 & Hget & Hdet & Hcase)];
      rewrite Hc in H.
    + discriminate.
    + unfold dict_item in H. rewrite Hget, bind_ret_l in H.
      rewrite (bind_some _ _ _ _ Hdet) in H.
      destruct Hcase as [(Hlang & _)|(Hlang & t & c2 & Htr & _)];
        rewrite Hlang in H; cbn [negb] in H; [discriminate|].
      rewrite bind_ret_l, (bind_some _ _ _ _ Htr) in H. discriminate.
  - intros [H|H]; [discriminate|].
    apply json_repo_raises in H.
    destruct H as (-> & text & Hget & Htrue & Hdet).
    unfold get_truthy, dict_item. rewrite Hget, Htrue. cbn [andb].
    rewrite bind_ret_l, Hdet. reflexivity.
Qed.

(** A record whose row cannot be built stops the export. *)
Lemma save_to_csv_stops (data : list record) (repo : record)
      (translate : bool) (delimiter : string) :
  In repo data ->
  csv_row translate repo = None ->
  save_to_csv data translate delimiter = None.
Proof.
  intros Hin Hrow. unfold Exporter.save_to_csv.
  destruct data as [|repo0 rest]; [contradiction|].
  assert (E : for_each (fun r => bind (csv_row translate r)
                                      (fun row => ret (writerow row)))
                       (repo0 :: rest) = None).
  { apply for_each_raises. exists repo. split; [exact Hin|].
    rewrite Hrow. reflexivity. }
  rewrite E. reflexivity.
Qed.

(** X10. With [translate] on and [langdetect] there, a record with a
    truthy description that is not a [str], or is a [str] on which
    [detect] raises, makes [save_to_json] and [save_to_csv] raise, and
    [save_to_xml] too when the description is neither a [list] nor a
    [dict] (which the XML export skips). *)
Theorem unclassifiable_description_raises (data : list record)
        (repo : record) (text : json) :
  TRANSLATION_AVAILABLE = true ->
  In repo data ->
  dict_get repo "description" = Some text ->
  truthy text = true ->
  (forall s, text = JStr s -> detect s = None) ->
  save_to_json data true = None /\
  (forall delimiter, save_to_csv data true delimiter = None) /\
  (forall v, text = JScalar v -> save_to_xml data true = None).
Proof.
  intros Hav Hin Hget Htrue Hs.
  assert (Hdet : detect_language text = None).
  { apply detect_language_raises. split; assumption. }
  assert (Hjson : json_repo true repo = None).
  { apply json_repo_raises. split; [reflexivity|]. exists text. auto. }
  split; [|split].
  - unfold Exporter.save_to_json. apply for_each_raises.
    exists repo. split; assumption.
  - intros delimiter. apply (save_to_csv_stops data repo); [exact Hin|].
    apply csv_row_raises. right. exact Hjson.
  - intros v Ev. subst text.
    assert (Hitem : xml_item true repo ("description", JScalar v) = None).
    { unfold Exporter.xml_item, get_truthy, dict_item.
      change (py_in "description" ["owner"; "license"]) with false.
      cbv iota. rewrite String.eqb_refl, Hget, Htrue. cbn [andb].
      rewrite bind_ret_l, Hdet. reflexivity. }
    assert (Hrepo : xml_repository true repo = None).
    { unfold Exporter.xml_repository.
      assert (E : for_each (xml_item true repo) repo = None).
      { apply for_each_raises. exists ("description", JScalar v).
        split; [apply dict_get_In; exact Hget|exact Hitem]. }
      rewrite E. reflexivity. }
    unfold Exporter.save_to_xml.
    assert (E : for_each (xml_repository true) data = None).
    { apply for_each_raises. exists repo. split; assumption. }
    rewrite E. reflexivity.
Qed.

(** X14. A record whose license is truthy and not a [dict] (a string, a
    number, a list that is not empty: values without [.get]) makes
    [save_to_csv] raise, whatever [translate] and the delimiter. *)
Theorem license_without_get_raises (data : list record) (repo : record)
        (v : json) (translate : bool) (delimiter : string) :
  In repo data ->
  dict_get repo "license" = Some v ->
  truthy v = true ->
  (forall d, v <> JDict d) ->
  save_to_csv data translate delimiter = None.
Proof.
  intros Hin Hget Htrue Hd.
  apply (save_to_csv_stops data repo); [exact Hin|].
  apply csv_row_raises. left. exists v. auto.
Qed.

(** X15. The tree of an export to XML: a root [repositories] without
    text, under it one [repository] element without text per record,
    in the order of the records, and under each of these only leaves
    that carry a text. *)
Theorem save_to_xml_shape (data : list record) (translate : bool)
        (root : element) (calls : list call) :
  save_to_xml data translate = Some (root, calls) ->
  tag_of root = "repositories" /\
  text_of root = None /\
  Forall2
    (fun repo e =>
       tag_of e = "repository" /\ text_of e = None /\
       (exists c, xml_repository translate repo = Some (e, c)) /\
       Forall (fun leaf => children_of leaf = [] /\ text_of leaf <> None)
              (children_of e))
    data (children_of root).
Proof.
  unfold Exporter.save_to_xml. intros H.
  apply bind_inv in H. destruct H as (es & l1 & l2 & Hes & H & _).
  injection H as <- _. simpl.
  split; [reflexivity|]. split; [reflexivity|].
  apply for_each_Forall2 in Hes.
  eapply Forall2_impl; [|exact Hes].
  intros repo e [c He].
  destruct (xml_repository_children _ _ _ _ _ _ _ He) as (fields & Hf & E).
  subst e. simpl.
  split; [reflexivity|]. split; [reflexivity|]. split; [eauto|].
  apply Forall_forall. intros leaf Hleaf.
  destruct (xml_child_origin _ _ _ _ _ _ _ _ He Hleaf)
    as (key & value & els & c' & _ & Hitem & Hin).
  destruct (xml_item_cases _ _ _ _ _ _ _ _ _ Hitem)
    as [(-> & _)|[(v & _ & _ & ->)
                 |(v & text & lang & t & c1 & c2 & _ & _ & _ & _ & _ & _
                   & _ & _ & _ & ->)]].
  - contradiction.
  - destruct Hin as [<-|[]]. split; [reflexivity|discriminate].
  - destruct Hin as [<-|[<-|[]]]; (split; [reflexivity|discriminate]).
Qed.

End ExporterMore.

(* ================================================================== *)
(** ** The preview *)
(* ================================================================== *)

Section PreviewFacts.

Import Py Display.

Lemma entry_complete (idx : Z) (repo : record) :
  complete repo ->
  exists name stars url,
    dict_get repo "name" = Some name /\
    dict_get repo "stargazers_count" = Some stars /\
    dict_get repo "html_url" = Some url /\
    entry idx repo
    = ([[Text newline; Value (JScalar (SInt idx)); Text ". "; Value name;
         Text " (⭐ "; Value stars; Text ")"];
        [Text "  ";
         Value (dict_get_default repo "description" (JStr "No description"))];
        [Text "  Language: ";
         Value (dict_get_default repo "language" (JStr "Unknown"))];
        [Text "  URL: "; Value url]],
       Returned).
Proof.
  intros (Hn & Hs & Hu). unfold entry.
  destruct (dict_get repo "name") as [name|]; [|contradiction].
  destruct (dict_get repo "stargazers_count") as [stars|]; [|contradiction].
  destruct (dict_get repo "html_url") as [url|]; [|contradiction].
  exists name, stars, url. auto.
Qed.

Lemma display_from_complete (repos : list record) :
  forall idx,
    (forall repo, In repo repos -> complete repo) ->
    exists shown,
      display_from idx repos = (shown, Returned) /\
      length shown = (4 * length repos)%nat /\
      forall i repo,
        nth_error repos i = Some repo ->
        exists name stars,
          dict_get repo "name" = Some name /\
          dict_get repo "stargazers_count" = Some stars /\
          nth_error shown (4 * i)
          = Some [Text newline; Value (JScalar (SInt (idx + Z.of_nat i)));
                  Text ". "; Value name; Text " (⭐ "; Value stars; Text ")"].
Proof.
  induction repos as [|repo repos IH]; intros idx Hall.
  - exists []. split; [reflexivity|]. split; [reflexivity|].
    intros [|i] r H; discriminate.
  - destruct (entry_complete idx repo) as (name & stars & url & Hn & Hs & Hu & He).
    { apply Hall. left. reflexivity. }
    destruct (IH (idx + 1)) as (more & Hd & Hlen & Hnth).
    { intros r Hr. apply Hall. right. exact Hr. }
    cbn [display_from]. rewrite He, Hd.
    eexists. split; [reflexivity|]. split.
    + cbn [app length]. rewrite Hlen. lia.
    + intros [|i] r Hr.
      * injection Hr as <-. exists name, stars.
        rewrite Z.add_0_r. auto.
      * simpl in Hr. destruct (Hnth i r Hr) as (n' & s' & Hn' & Hs' & Hh).
        exists n', s'. split; [exact Hn'|]. split; [exact Hs'|].
        replace (4 * S i)%nat with (S (S (S (S (4 * i))))) by lia.
        cbn [app nth_error]. rewrite Hh.
        replace (idx + 1 + Z.of_nat i) with (idx + Z.of_nat (S i)) by lia.
        reflexivity.
Qed.

(** X17. When every record to show has a [name], a
    [stargazers_count] and an [html_url], [display_results] returns
    after four lines for each of the first [num_to_display] records,
    and the heading of each carries its rank, counted from 1. *)
Theorem display_results_numbers_entries (repos : list record)
        (num_to_display : Z) :
  (forall repo, In repo (slice_to num_to_display repos) -> complete repo) ->
  exists shown,
    display_results repos num_to_display = (shown, Returned) /\
    length shown = (4 * length (slice_to num_to_display repos))%nat /\
    forall i repo,
      nth_error (slice_to num_to_display repos) i = Some repo ->
      exists name stars,
        dict_get repo "name" = Some name /\
        dict_get repo "stargazers_count" = Some stars /\
        nth_error shown (4 * i)
        = Some [Text newline; Value (JScalar (SInt (1 + Z.of_nat i)));
                Text ". "; Value name; Text " (⭐ "; Value stars; Text ")"].
Proof.
  intros Hall. unfold display_results.
  exact (display_from_complete _ 1 Hall).
Qed.

Lemma display_from_key_error (repos : list record) :
  forall idx shown key,
    display_from idx repos = (shown, KeyError key) ->
    exists good bad rest,
      repos = good ++ bad :: rest /\
      (forall repo, In repo good -> complete repo) /\
      dict_get bad key = None /\
      ((key = "name" /\ length shown = (4 * length good)%nat) \/
       (key = "stargazers_count" /\ dict_get bad "name" <> None /\
        length shown = (4 * length good)%nat) \/
       (key = "html_url" /\ dict_get bad "name" <> None /\
        dict_get bad "stargazers_count" <> None /\
        length shown = (4 * length good + 3)%nat)).
Proof.
  induction repos as [|repo repos IH]; intros idx shown key H;
    [discriminate|].
  cbn [display_from] in H.
  destruct (entry idx repo) as [printed e] eqn:He.
  destruct e as [|k].
  - destruct (display_from (idx + 1) repos) as [more e'] eqn:Hd.
    injection H as <- ->.
    destruct (IH _ _ _ Hd) as (good & bad & rest & -> & Hgood & Hbad & Hcase).
    assert (Hc : complete repo /\ length printed = 4%nat).
    { unfold entry in He. unfold complete.
      destruct (dict_get repo "name"); [|discriminate].
      destruct (dict_get repo "stargazers_count"); [|discriminate].
      destruct (dict_get repo "html_url"); [|discriminate].
      injection He as <-. repeat split; discriminate. }
    destruct Hc as [Hc Hlen].
    exists (repo :: good), bad, rest. split; [reflexivity|].
    split; [intros r [<-|Hr]; [exact Hc|exact (Hgood r Hr)]|].
    split; [exact Hbad|].
    rewrite length_app, Hlen. cbn [length].
    destruct Hcase as [(-> & Hl)|[(-> & Hn & Hl)|(-> & Hn & Hs & Hl)]].
    + left. split; [reflexivity|]. lia.
    + right; left. split; [reflexivity|]. split; [exact Hn|]. lia.
    + right; right. split; [reflexivity|]. split; [exact Hn|].
      split; [exact Hs|]. lia.
  - injection H as <- <-.
    exists [], repo, repos. split; [reflexivity|].
    split; [intros r []|].
    unfold entry in He.
    destruct (dict_get repo "name") eqn:Hn.
    2:{ injection He as <- <-. split; [exact Hn|]. left. auto. }
    destruct (dict_get repo "stargazers_count") eqn:Hs.
    2:{ injection He as <- <-. split; [exact Hs|]. right; left.
        split; [reflexivity|]. split; [discriminate|reflexivity]. }
    destruct (dict_get repo "html_url") eqn:Hu; [discriminate|].
    injection He as <- <-. split; [exact Hu|]. right; right.
    split; [reflexivity|]. split; [discriminate|].
    split; [discriminate|reflexivity].
Qed.

(** X18. When [display_results] raises, it is a [KeyError] for
    [name], [stargazers_count] or [html_url] on the first record to
    show that lacks one of them (looked up in this order); the records
    before it were shown in full, and of the record itself three
    lines were shown when it is [html_url] that is missing, none
    otherwise. *)
Theorem display_results_key_error (repos : list record)
        (num_to_display : Z) (shown : list line) (key : string) :
  display_results repos num_to_display = (shown, KeyError key) ->
  exists good bad rest,
    slice_to num_to_display repos = good ++ bad :: rest /\
    (forall repo, In repo good -> complete repo) /\
    dict_get bad key = None /\
    ((key = "name" /\ length shown = (4 * length good)%nat) \/
     (key = "stargazers_count" /\ dict_get bad "name" <> None /\
      length shown = (4 * length good)%nat) \/
     (key = "html_url" /\ dict_get bad "name" <> None /\
      dict_get bad "stargazers_count" <> None /\
      length shown = (4 * length good + 3)%nat)).
Proof.
  unfold display_results. apply display_from_key_error.
Qed.

End PreviewFacts.

(* ================================================================== *)
(** ** The command line *)
(* ================================================================== *)

Section MainFacts.

Import Py Fetch Exporter Search Display Main.

Variable TRANSLATION_AVAILABLE : bool.
Variable detect : string -> option string.
Variable libretranslate : json -> option json.
Variable remote : request -> fetcher record.

Local Notation save := (save TRANSLATION_AVAILABLE detect libretranslate).
Local Notation main := (main TRANSLATION_AVAILABLE detect libretranslate remote).
Local Notation save_to_json :=
  (save_to_json TRANSLATION_AVAILABLE detect libretranslate).
Local Notation save_to_csv :=
  (save_to_csv TRANSLATION_AVAILABLE detect libretranslate).
Local Notation save_to_xml :=
  (save_to_xml TRANSLATION_AVAILABLE detect libretranslate).

(** The query [main] searches for. *)
Local Notation query_of a query_answer :=
  (if given (query a) then text_of_arg (query a) else query_answer).

Local Notation request_of a query_answer :=
  (search_github (query_of a query_answer) (sort a) (order a) (language a)
                 (min_stars a) 30 (token a)).

Lemma given_text (s : option string) :
  given s = true -> text_of_arg s <> "".
Proof.
  destruct s as [text|]; simpl; [|discriminate].
  intros H E. subst text. discriminate.
Qed.

(** The way of [main] to a saved file. *)
Lemma main_saved (a : args) (query_answer format_choice filename_input : string)
      (fuel : nat) shown filename file calls log :
  main a query_answer format_choice filename_input fuel
  = Some (Saved shown filename file calls, log) ->
  exists results,
    query_of a query_answer <> "" /\
    fetch_results (remote (request_of a query_answer)) (num_results a) fuel
    = Some (results, log) /\
    results <> [] /\
    display_results results (display_num a) = (shown, Returned) /\
    filename = output_filename filename_input (query_of a query_answer)
                               (snd (choose_format format_choice)) /\
    save (fst (choose_format format_choice)) results (translate a)
    = Some (file, calls).
Proof.
  unfold Main.main. cbv zeta.
  destruct (given (query a)) eqn:Hq; cbn [negb andb].
  - destruct (choose_format format_choice) as [ff fe].
    destruct (fetch_results _ _ fuel) as [[results lg]|] eqn:Hf;
      [|discriminate].
    destruct results as [|r0 rs]; [discriminate|].
    destruct (display_results (r0 :: rs) (display_num a)) as [sh [|k]] eqn:Hd;
      [|discriminate].
    destruct (save ff (r0 :: rs) (translate a)) as [[f c]|] eqn:Hs;
      [|discriminate].
    intros H. injection H as <- <- <- <- <-.
    exists (r0 :: rs). split; [apply given_text; exact Hq|].
    split; [reflexivity|]. split; [discriminate|].
    split; [exact Hd|]. split; [reflexivity|exact Hs].
  - unfold given at 1.
    destruct (String.eqb_spec query_answer "") as [->|Hne]; cbn [negb];
      [discriminate|].
    cbn [text_of_arg].
    destruct (choose_format format_choice) as [ff fe].
    destruct (fetch_results _ _ fuel) as [[results lg]|] eqn:Hf;
      [|discriminate].
    destruct results as [|r0 rs]; [discriminate|].
    destruct (display_results (r0 :: rs) (display_num a)) as [sh [|k]] eqn:Hd;
      [|discriminate].
    destruct (save ff (r0 :: rs) (translate a)) as [[f c]|] eqn:Hs;
      [|discriminate].
    intros H. injection H as <- <- <- <- <-.
    exists (r0 :: rs). split; [exact Hne|].
    split; [reflexivity|]. split; [discriminate|].
    split; [exact Hd|]. split; [reflexivity|exact Hs].
Qed.

Lemma choose_format_cases (format_choice : string) :
  (format_choice = "2" /\ choose_format format_choice = ("csv", "csv")) \/
  (format_choice = "3" /\ choose_format format_choice = ("tsv", "tsv")) \/
  (format_choice = "4" /\ choose_format format_choice = ("xml", "xml")) \/
  (format_choice <> "2" /\ format_choice <> "3" /\ format_choice <> "4" /\
   choose_format format_choice = ("json", "json")).
Proof.
  unfold choose_format.
  destruct (String.eqb_spec format_choice "2") as [->|H2]; [auto|].
  destruct (String.eqb_spec format_choice "3") as [->|H3]; [auto|].
  destruct (String.eqb_spec format_choice "4") as [->|H4]; [auto 6|].
  right; right; right. auto.
Qed.

Lemma save_to_csv_rows (results : list record) (translate : bool)
      (delimiter : string) (file : option csv_file) (calls : list call) :
  results <> [] ->
  save_to_csv results translate delimiter = Some (file, calls) ->
  exists rows,
    file = Some (mkCsv delimiter fieldnames rows) /\
    length rows = length results /\
    forall delimiter',
      save_to_csv results translate delimiter'
      = Some (Some (mkCsv delimiter' fieldnames rows), calls).
Proof.
  intros Hne. unfold Exporter.save_to_csv.
  destruct results as [|r0 rs]; [contradiction|].
  intros H. apply bind_inv in H. destruct H as (rows & l1 & l2 & Hrows & H & E).
  injection H as <- <-. subst calls.
  exists rows. split; [reflexivity|].
  split; [eapply for_each_length; exact Hrows|].
  intros delimiter'. rewrite Hrows. reflexivity.
Qed.

(** X19. When [main] saves a file, the extension of its name is the
    format that was written: [json] with the list handed to
    [json.dump], [csv] with a header and rows for the delimiter [,],
    [tsv] with the same for the tab, [xml] with a tree; for CSV and
    TSV the header is always written and there is at least one row.
    Any answer to the format prompt other than 2, 3 and 4 gives
    JSON. *)
Theorem main_file_matches_extension
        (a : args) (query_answer format_choice filename_input : string)
        (fuel : nat) shown filename file calls log :
  main a query_answer format_choice filename_input fuel
  = Some (Saved shown filename file calls, log) ->
  exists base ext,
    filename = String.append base (String.append "." ext) /\
    ((ext = "json" /\ format_choice <> "2" /\ format_choice <> "3" /\
      format_choice <> "4" /\ exists data, file = Some (JsonFile data)) \/
     (ext = "csv" /\ format_choice = "2" /\
      exists rows,
        file = Some (CsvFile (Some (mkCsv "," fieldnames rows))) /\
        rows <> []) \/
     (ext = "tsv" /\ format_choice = "3" /\
      exists rows,
        file = Some (CsvFile (Some (mkCsv Scenarios.tab fieldnames rows))) /\
        rows <> []) \/
     (ext = "xml" /\ format_choice = "4" /\
      exists root, file = Some (XmlFile root))).
Proof.
  intros H.
  destruct (main_saved _ _ _ _ _ _ _ _ _ _ H)
    as (results & _ & _ & Hne & _ & -> & Hsave).
  unfold output_filename. cbv zeta.
  eexists. exists (snd (choose_format format_choice)).
  split; [reflexivity|].
  assert (Hrows : forall rows : list (list json),
             length rows = length results -> rows <> []).
  { intros rows Hl ->. destruct results; [contradiction|discriminate]. }
  destruct (choose_format_cases format_choice)
    as [[-> E]|[[-> E]|[[-> E]|(H2 & H3 & H4 & E)]]];
    rewrite E in *; cbn [fst snd] in *; unfold Main.save in Hsave;
    cbn [String.eqb Ascii.eqb Bool.eqb] in Hsave.
  - right; left. split; [reflexivity|]. split; [reflexivity|].
    apply bind_inv in Hsave. destruct Hsave as (f & c1 & c2 & Hf & Hs & _).
    injection Hs as <- _.
    destruct (save_to_csv_rows _ _ _ _ _ Hne Hf) as (rows & -> & Hl & _).
    exists rows. split; [reflexivity|exact (Hrows _ Hl)].
  - right; right; left. split; [reflexivity|]. split; [reflexivity|].
    apply bind_inv in Hsave. destruct Hsave as (f & c1 & c2 & Hf & Hs & _).
    injection Hs as <- _.
    destruct (save_to_csv_rows _ _ _ _ _ Hne Hf) as (rows & -> & Hl & _).
    exists rows. split; [reflexivity|exact (Hrows _ Hl)].
  - right; right; right. split; [reflexivity|]. split; [reflexivity|].
    apply bind_inv in Hsave. destruct Hsave as (root & c1 & c2 & Hf & Hs & _).
    injection Hs as <- _. eauto.
  - left. split; [reflexivity|]. repeat (split; [assumption|]).
    apply bind_inv in Hsave. destruct Hsave as (data & c1 & c2 & Hf & Hs & _).
    injection Hs as <- _. eauto.
Qed.

(** [main] once it has a query. *)
Lemma main_with_query (a : args)
      (query_answer format_choice filename_input : string) (fuel : nat) :
  query_of a query_answer <> "" ->
  main a query_answer format_choice filename_input fuel
  = match fetch_results (remote (request_of a query_answer)) (num_results a)
                        fuel with
    | None => None
    | Some (results, log) =>
        match results with
        | [] => Some (NoRepositories, log)
        | _ :: _ =>
            match display_results results (display_num a) with
            | (shown, KeyError key) => Some (PreviewFailed shown key, log)
            | (shown, Returned) =>
                let filename :=
                  output_filename filename_input (query_of a query_answer)
                                  (snd (choose_format format_choice)) in
                match save (fst (choose_format format_choice)) results
                           (translate a) with
                | None => Some (ExportFailed shown filename, log)
                | Some (file, calls) =>
                    Some (Saved shown filename file calls, log)
                end
            end
        end
    end.
Proof.
  unfold Main.main. cbv zeta.
  destruct (given (query a)) eqn:Hq; cbn [negb andb].
  - intros _. destruct (choose_format format_choice) as [ff fe]. reflexivity.
  - intros Hne. unfold given at 1.
    destruct (String.eqb_spec query_answer "") as [->|_]; [contradiction|].
    cbn [negb text_of_arg].
    destruct (choose_format format_choice) as [ff fe]. reflexivity.
Qed.

(** X20. With the same command line, answers and remote end, choosing
    TSV instead of CSV makes [main] show the same preview, make the
    same calls and save the same header and rows; only the delimiter
    and the extension of the file name differ. *)
Theorem main_csv_and_tsv_agree
        (a : args) (query_answer filename_input : string) (fuel : nat)
        shown filename file calls log :
  main a query_answer "2" filename_input fuel
  = Some (Saved shown filename (Some (CsvFile (Some file))) calls, log) ->
  csv_delimiter file = "," /\
  filename = output_filename filename_input (query_of a query_answer) "csv" /\
  main a query_answer "3" filename_input fuel
  = Some (Saved shown
                (output_filename filename_input (query_of a query_answer) "tsv")
                (Some (CsvFile (Some (mkCsv Scenarios.tab (csv_header file)
                                            (csv_rows file)))))
                calls, log).
Proof.
  intros H.
  destruct (main_saved _ _ _ _ _ _ _ _ _ _ H)
    as (results & Hq & Hf & Hne & Hd & Hname & Hsave).
  change (choose_format "2") with ("csv", "csv") in *. cbn [fst snd] in *.
  unfold Main.save in Hsave. cbn [String.eqb Ascii.eqb Bool.eqb] in Hsave.
  apply bind_inv in Hsave. destruct Hsave as (f & c1 & c2 & Hcsv & Hs & E).
  injection Hs as Ef Ec. subst c2. rewrite app_nil_r in E. subst c1.
  destruct (save_to_csv_rows _ _ _ _ _ Hne Hcsv) as (rows & -> & _ & Hother).
  injection Ef as <-. cbn [csv_delimiter csv_header csv_rows].
  split; [reflexivity|]. split; [exact Hname|].
  rewrite (main_with_query _ _ _ _ _ Hq), Hf.
  destruct results as [|r0 rs]; [contradiction|].
  rewrite Hd. cbv zeta.
  change (choose_format "3") with ("tsv", "tsv"). cbn [fst snd].
  unfold Main.save. cbn [String.eqb Ascii.eqb Bool.eqb].
  rewrite (Hother (String.String (Ascii.ascii_of_nat 9) String.EmptyString)).
  cbn [bind ret]. rewrite app_nil_r. reflexivity.
Qed.

(** X21. When [main] saves a file, every record that [fetch_results]
    returned is in it, whatever the number shown in the preview: the
    list, the rows or the [repository] elements are as many as the
    records, which are at least one and at most [num_results]; with
    [translate] off no call is made outside and the JSON list is the
    fetched list itself. *)
Theorem main_exports_every_record
        (a : args) (query_answer format_choice filename_input : string)
        (fuel : nat) shown filename file calls log :
  main a query_answer format_choice filename_input fuel
  = Some (Saved shown filename file calls, log) ->
  exists results,
    fetch_results (remote (request_of a query_answer)) (num_results a) fuel
    = Some (results, log) /\
    results <> [] /\
    Z.of_nat (length results) <= num_results a /\
    (forall data,
        file = Some (JsonFile data) ->
        length data = length results /\
        (translate a = false -> data = results)) /\
    (forall f,
        file = Some (CsvFile (Some f)) ->
        length (csv_rows f) = length results) /\
    (forall root,
        file = Some (XmlFile root) ->
        length (children_of root) = length results) /\
    (translate a = false -> calls = []).
Proof.
  intros H.
  destruct (main_saved _ _ _ _ _ _ _ _ _ _ H)
    as (results & Hq & Hf & Hne & Hd & Hname & Hsave).
  exists results. split; [exact Hf|]. split; [exact Hne|].
  split.
  { destruct (Z_lt_le_dec (num_results a) 0) as [Hneg|Hpos].
    - exfalso. apply Hne.
      rewrite fetch_results_no_target in Hf by lia. congruence.
    - unfold Fetch.fetch_results in Hf.
      destruct (Fetch.loop _ _ fuel init) as [[r0 lg]|]; [|discriminate].
      injection Hf as <- _. apply slice_to_length. exact Hpos. }
  unfold Main.save in Hsave.
  destruct (String.eqb (fst (choose_format format_choice)) "json").
  { apply bind_inv in Hsave. destruct Hsave as (data & c1 & c2 & Hj & Hs & E).
    injection Hs as <- <-. rewrite app_nil_r in E. subst c1.
    split; [|split; [|split]]; try (intros x Hx; discriminate).
    - intros d Hx. injection Hx as <-.
      split; [eapply for_each_length; exact Hj|].
      intros Hoff. rewrite Hoff, save_to_json_plain in Hj. congruence.
    - intros Hoff. rewrite Hoff, save_to_json_plain in Hj. congruence. }
  assert (Hcsv : forall delimiter f0 c,
             save_to_csv results (translate a) delimiter = Some (f0, c) ->
             (forall f, f0 = Some f -> length (csv_rows f) = length results) /\
             (translate a = false -> c = [])).
  { intros delimiter f0 c Hc. split.
    - destruct (save_to_csv_rows _ _ _ _ _ Hne Hc) as (rows & -> & Hl & _).
      intros f Ef. injection Ef as <-. exact Hl.
    - intros Hoff. rewrite Hoff in Hc.
      unfold Exporter.save_to_csv in Hc.
      destruct results as [|r0 rs]; [contradiction|].
      apply bind_inv in Hc. destruct Hc as (rows & l1 & l2 & Hrows & Hc & E).
      injection Hc as _ E'. subst.
      apply for_each_no_call in Hrows; [rewrite Hrows; reflexivity|].
      intros x y c0 Hx.
      apply bind_inv in Hx. destruct Hx as (row & c5 & c6 & Hrow & Hx & E).
      injection Hx as _ E'. subst.
      apply csv_row_quiet in Hrow. rewrite Hrow. reflexivity. }
  destruct (String.eqb (fst (choose_format format_choice)) "csv").
  { apply bind_inv in Hsave. destruct Hsave as (f0 & c1 & c2 & Hc & Hs & E).
    injection Hs as <- <-. rewrite app_nil_r in E. subst c1.
    destruct (Hcsv _ _ _ Hc) as [Hrows Hquiet].
    split; [|split; [|split]]; try (intros x Hx; discriminate).
    - intros f Hx. injection Hx as Hx. exact (Hrows f Hx).
    - exact Hquiet. }
  destruct (String.eqb (fst (choose_format format_choice)) "tsv").
  { apply bind_inv in Hsave. destruct Hsave as (f0 & c1 & c2 & Hc & Hs & E).
    injection Hs as <- <-. rewrite app_nil_r in E. subst c1.
    destruct (Hcsv _ _ _ Hc) as [Hrows Hquiet].
    split; [|split; [|split]]; try (intros x Hx; discriminate).
    - intros f Hx. injection Hx as Hx. exact (Hrows f Hx).
    - exact Hquiet. }
  destruct (String.eqb (fst (choose_format format_choice)) "xml").
  { apply bind_inv in Hsave. destruct Hsave as (root & c1 & c2 & Hx & Hs & E).
    injection Hs as <- <-. rewrite app_nil_r in E. subst c1.
    split; [|split; [|split]]; try (intros x Hx'; discriminate).
    - intros r Hr. injection Hr as <-.
      unfold Exporter.save_to_xml in Hx.
      apply bind_inv in Hx. destruct Hx as (es & l1 & l2 & Hes & Hx & _).
      injection Hx as <- _. simpl. eapply for_each_length. exact Hes.
    - intros Hoff. rewrite Hoff in Hx.
      destruct (save_to_xml_plain TRANSLATION_AVAILABLE detect libretranslate
                                  results) as [root' Hroot].
      congruence. }
  injection Hsave as <- <-.
  split; [|split; [|split]]; try (intros x Hx; discriminate).
  reflexivity.
Qed.

(** X22. Without a query, neither on the command line nor at the
    prompt, [main] ends before it asks anything else or sends a
    request, whatever the remote end would do; and this is the only
    way it ends so. *)
Theorem main_requires_query
        (a : args) (query_answer format_choice filename_input : string)
        (fuel : nat) :
  (given (query a) = false /\ query_answer = "" ->
   main a query_answer format_choice filename_input fuel
   = Some (QueryRequired, [])) /\
  (forall log,
      main a query_answer format_choice filename_input fuel
      = Some (QueryRequired, log) ->
      given (query a) = false /\ query_answer = "" /\ log = []).
Proof.
  split.
  - intros [Hq ->]. unfold Main.main. cbv zeta. rewrite Hq. reflexivity.
  - intros log H.
    destruct (String.eqb_spec (query_of a query_answer) "") as [E|Hne].
    + destruct (given (query a)) eqn:Hq.
      * exfalso. exact (given_text _ Hq E).
      * subst query_answer. unfold Main.main in H. cbv zeta in H.
        rewrite Hq in H. cbn in H. injection H as <-. auto.
    + rewrite (main_with_query _ _ _ _ _ Hne) in H.
      destruct (fetch_results _ _ fuel) as [[results lg]|]; [|discriminate].
      destruct results as [|r0 rs]; [discriminate|].
      destruct (display_results (r0 :: rs) (display_num a)) as [sh [|k]];
        [|discriminate].
      cbv zeta in H.
      destruct (save _ _ _) as [[f c]|]; discriminate.
Qed.

End MainFacts.

(* ================================================================== *)
(** ** More concrete runs: the loop *)
(* ================================================================== *)

Section MoreFetchScenarios.

Import Py Fetch Tally Scenarios Examples.

Lemma requests_follow_the_pages_witness :
  2 = 1 + Z.of_nat (pages_fetched
                      [Get 1 (Items [1; 2; 3]); Sleep 1;
                       Get 2 (HTTPError 403); Sleep 60]) /\
  Items [4; 5; 6]
  = limited_once (requests [Get 1 (Items [1; 2; 3]); Sleep 1;
                            Get 2 (HTTPError 403); Sleep 60]) 2.
Proof.
  apply (requests_follow_the_pages limited_once 50 4 [1; 2; 3; 4; 5; 6]
           limited_once_log
           [Get 1 (Items [1; 2; 3]); Sleep 1; Get 2 (HTTPError 403); Sleep 60]
           [Sleep 1; Get 3 (Items [])]).
  - reflexivity.
  - reflexivity.
Defined.

Lemma requests_only_below_target_witness :
  Z.of_nat (length (concat (fetched_pages
                              [Get 1 (Items [1; 2; 3]); Sleep 1]))) < 5 /\
  exists kept,
    [1; 2; 3; 4; 5]
    = concat (fetched_pages [Get 1 (Items [1; 2; 3]); Sleep 1]) ++ kept.
Proof.
  apply (requests_only_below_target two_pages_then_empty 5 2 [1; 2; 3; 4; 5]
           second_page_log [Get 1 (Items [1; 2; 3]); Sleep 1] [Sleep 1]
           2 (Items [4; 5; 6])).
  - reflexivity.
  - reflexivity.
Defined.

Lemma short_result_means_stopped_witness :
  Z.of_nat (length [1; 2; 3; 4; 5; 6]) = 50 \/
  (Z.of_nat (length [1; 2; 3; 4; 5; 6]) < 50 /\
   exists pre p o,
     limited_once_log = pre ++ [Get p o] /\
     (o = Items [] \/ terminal o = true)).
Proof.
  apply (short_result_means_stopped limited_once 50 4).
  - lia.
  - reflexivity.
Defined.

Lemma full_pages_give_exact_count_witness :
  exists fuel r log,
    fetch_results endless 3 fuel = Some (r, log) /\
    Z.of_nat (length r) = 3.
Proof.
  apply (full_pages_give_exact_count endless 3).
  - lia.
  - intros n p. exists (Z.of_nat n), []. reflexivity.
Defined.

Lemma sleep_accounting_witness :
  total_sleep limited_once_log
  = Z.of_nat (pages_fetched limited_once_log)
    + 60 * Z.of_nat (rate_limited limited_once_log) /\
  Z.of_nat (pages_fetched limited_once_log) <= Z.max 0 50.
Proof.
  apply (sleep_accounting limited_once 50 4 [1; 2; 3; 4; 5; 6]).
  reflexivity.
Defined.

Lemma no_request_iff_no_target_witness :
  (@nil (event Z) = [] <-> 0 <= 0) /\
  (second_page_log = [] <-> 5 <= 0).
Proof.
  split.
  - apply (no_request_iff_no_target two_pages_then_empty 0 0 []). reflexivity.
  - apply (no_request_iff_no_target two_pages_then_empty 5 2 [1; 2; 3; 4; 5]).
    reflexivity.
Defined.

End MoreFetchScenarios.

(* ================================================================== *)
(** ** More concrete runs: exports, preview and command line *)
(* ================================================================== *)

Section MoreExportScenarios.

Import Py Fetch Exporter Search Display Main Scenarios Examples.

Local Notation save_to_json := (save_to_json true detect_french to_english).
Local Notation save_to_csv := (save_to_csv true detect_french to_english).
Local Notation save_to_xml := (save_to_xml true detect_french to_english).
Local Notation main := (main true detect_french to_english one_page).

Lemma save_to_json_keeps_fields_witness :
  exists out calls,
    save_to_json [bonjour_repo; hello_repo] true = Some (out, calls) /\
    length out = length [bonjour_repo; hello_repo].
Proof.
  destruct (save_to_json_keeps_fields true detect_french to_english
              [bonjour_repo; hello_repo] _ true _ eq_refl) as [Hlen _].
  eexists. eexists. split; [reflexivity|exact Hlen].
Defined.

Lemma save_to_json_idempotent_witness :
  exists out calls,
    save_to_json [bonjour_repo; hello_repo] true = Some (out, calls) /\
    save_to_json out true = Some (out, calls).
Proof.
  eexists. eexists. split; [reflexivity|].
  apply (save_to_json_idempotent true detect_french to_english
           [bonjour_repo; hello_repo]).
  reflexivity.
Defined.

Lemma unclassifiable_description_raises_witness :
  save_to_json [hello_repo; numbered_repo] true = None /\
  save_to_xml [hello_repo; numbered_repo] true = None.
Proof.
  destruct (unclassifiable_description_raises true detect_french to_english
              [hello_repo; numbered_repo] numbered_repo (JScalar (SInt 5)))
    as (Hjson & _ & Hxml).
  - reflexivity.
  - simpl. tauto.
  - reflexivity.
  - reflexivity.
  - intros s E. discriminate.
  - split; [exact Hjson|]. apply (Hxml (SInt 5)). reflexivity.
Defined.

Lemma exports_without_translation_witness :
  save_to_json [bonjour_repo; numbered_repo] false
  = Some ([bonjour_repo; numbered_repo], []).
Proof.
  apply (proj1 (exports_without_translation true detect_french to_english
                  [bonjour_repo; numbered_repo])).
Defined.

Lemma enrichment_without_langdetect_witness :
  Exporter.save_to_xml false detect_french to_english
                       [bonjour_repo; numbered_repo] true
  = Exporter.save_to_xml false detect_french to_english
                         [bonjour_repo; numbered_repo] false.
Proof.
  apply (enrichment_without_langdetect false detect_french to_english
           [bonjour_repo; numbered_repo]).
  reflexivity.
Defined.

Lemma csv_passes_values_witness :
  exists file calls,
    save_to_csv [hello_repo] true "," = Some (Some file, calls) /\
    Forall2
      (fun repo cells =>
         forall v,
           dict_get repo "license" = Some v ->
           truthy v = false ->
           csv_cell cells "license" = Some v)
      [hello_repo] (csv_rows file).
Proof.
  eexists. eexists. split; [reflexivity|].
  eapply Forall2_impl;
    [|apply (csv_passes_values true detect_french to_english true
               [hello_repo] "," _ _ eq_refl)].
  intros repo cells (_ & H & _). exact H.
Defined.

Lemma license_without_get_raises_witness :
  save_to_csv [hello_repo; named_license_repo] false "," = None.
Proof.
  apply (license_without_get_raises true detect_french to_english
           [hello_repo; named_license_repo] named_license_repo (JStr "MIT")
           false ",").
  - simpl. tauto.
  - reflexivity.
  - reflexivity.
  - intros d E. discriminate.
Defined.

Lemma save_to_xml_shape_witness :
  exists root calls,
    save_to_xml [bonjour_repo; hello_repo] true = Some (root, calls) /\
    tag_of root = "repositories" /\
    length (children_of root) = 2%nat.
Proof.
  destruct (save_to_xml_shape true detect_french to_english
              [bonjour_repo; hello_repo] true _ _ eq_refl)
    as (Htag & _ & Hall).
  eexists. eexists. split; [reflexivity|]. split; [exact Htag|].
  apply Forall2_length in Hall. symmetry. exact Hall.
Defined.

Lemma display_results_numbers_entries_witness :
  exists shown,
    display_results [bonjour_repo; hello_repo; no_url_repo] 2
    = (shown, Returned) /\
    length shown = 8%nat.
Proof.
  destruct (display_results_numbers_entries
              [bonjour_repo; hello_repo; no_url_repo] 2)
    as (shown & H & Hlen & _).
  - intros repo [<-|[<-|[]]]; repeat split; discriminate.
  - exists shown. split; [exact H|exact Hlen].
Defined.

Lemma display_results_key_error_witness :
  exists shown good bad rest,
    display_results [bonjour_repo; no_url_repo; hello_repo] 5
    = (shown, KeyError "html_url") /\
    slice_to 5 [bonjour_repo; no_url_repo; hello_repo] = good ++ bad :: rest /\
    dict_get bad "html_url" = None.
Proof.
  destruct (display_results_key_error
              [bonjour_repo; no_url_repo; hello_repo] 5 _ "html_url" eq_refl)
    as (good & bad & rest & Hs & _ & Hbad & _).
  eexists. exists good, bad, rest.
  split; [reflexivity|]. split; [exact Hs|exact Hbad].
Defined.

Lemma main_file_matches_extension_witness :
  exists shown filename file calls log base ext,
    main command_line "" "4" "" 2
    = Some (Saved shown filename file calls, log) /\
    filename = String.append base (String.append "." ext) /\
    ext = "xml".
Proof.
  destruct (main_file_matches_extension true detect_french to_english one_page
              command_line "" "4" "" 2 _ _ _ _ _ eq_refl)
    as (base & ext & Hname & Hcase).
  do 5 eexists. exists base, ext.
  split; [reflexivity|]. split; [exact Hname|].
  destruct Hcase as [(_ & _ & _ & H4 & _)|[(_ & H2 & _)|[(_ & H3 & _)|(E & _)]]].
  - exfalso. apply H4. reflexivity.
  - discriminate.
  - discriminate.
  - exact E.
Defined.

Lemma main_csv_and_tsv_agree_witness :
  exists shown filename file calls log,
    main command_line "" "3" "out" 2
    = Some (Saved shown filename (Some (CsvFile (Some file))) calls, log) /\
    filename = "out.tsv" /\ csv_delimiter file = tab.
Proof.
  destruct (main_csv_and_tsv_agree true detect_french to_english one_page
              command_line "" "out" 2 _ _ _ _ _ eq_refl)
    as (_ & _ & H).
  do 5 eexists. split; [exact H|]. split; reflexivity.
Defined.

Lemma main_exports_every_record_witness :
  exists results log,
    fetch_results (one_page (search_github "machine learning" "stars" "desc"
                                            None 0 30 None)) 2 2
    = Some (results, log) /\
    Z.of_nat (length results) <= 2.
Proof.
  destruct (main_exports_every_record true detect_french to_english one_page
              command_line "" "1" "" 2 _ _ _ _ _ eq_refl)
    as (results & Hf & _ & Hle & _).
  eexists. eexists. split; [exact Hf|exact Hle].
Defined.

Lemma main_requires_query_witness :
  main (mkArgs None None 2 "stars" "desc" None 0 true 5) "" "2" "out" 0
  = Some (QueryRequired, []).
Proof.
  apply (proj1 (main_requires_query true detect_french to_english one_page
                  (mkArgs None None 2 "stars" "desc" None 0 true 5)
                  "" "2" "out" 0)).
  split; reflexivity.
Defined.

End MoreExportScenarios.

(* ================================================================== *)
(** ** The loop on the session that [search_github] builds *)
(* ================================================================== *)

Section TransportFacts.

Import Py Fetch Search Transport.

Context {item : Type}.

(** No status of [status_forcelist] comes out of the adapter as an
    [HTTPError]. *)
Lemma attempts_not_forced (retries : retry) (answers : nat -> reply item)
      (c : Z) :
  In c (status_forcelist retries) ->
  forall left k, attempts retries left answers k <> HTTPError c.
Proof.
  intros Hc. induction left as [|left IH]; intros k; simpl;
    destruct (answers k) as [code items|];
    try discriminate; try apply IH.
  - destruct (existsb (Z.eqb code) (status_forcelist retries)) eqn:E;
      [discriminate|].
    unfold handed_over.
    destruct ((400 <=? code) && (code <? 600)); [|discriminate].
    intros H. injection H as ->.
    assert (Hin : existsb (Z.eqb c) (status_forcelist retries) = true).
    { apply existsb_exists. exists c. split; [exact Hc|apply Z.eqb_refl]. }
    congruence.
  - destruct (existsb (Z.eqb code) (status_forcelist retries)) eqn:E;
      [apply IH|].
    unfold handed_over.
    destruct ((400 <=? code) && (code <? 600)); [|discriminate].
    intros H. injection H as ->.
    assert (Hin : existsb (Z.eqb c) (status_forcelist retries) = true).
    { apply existsb_exists. exists c. split; [exact Hc|apply Z.eqb_refl]. }
    congruence.
Qed.

(** A status of [status_forcelist] on every attempt ends in an
    exception that is not an [HTTPError]. *)
Lemma attempts_all_forced (retries : retry) (answers : nat -> reply item)
      (c : Z) :
  In c (status_forcelist retries) ->
  (forall k, exists items, answers k = Response c items) ->
  forall left k, attempts retries left answers k = Failure.
Proof.
  intros Hc Hall.
  assert (Hin : existsb (Z.eqb c) (status_forcelist retries) = true).
  { apply existsb_exists. exists c. split; [exact Hc|apply Z.eqb_refl]. }
  induction left as [|left IH]; intros k; simpl;
    destruct (Hall k) as [items ->]; rewrite Hin; [reflexivity|apply IH].
Qed.

Variables the_query sort order : string.
Variable language : option string.
Variables min_stars per_page : Z.
Variable token : option string.
Variable srv : server item.

Local Notation request :=
  (search_github the_query sort order language min_stars per_page token).

Lemma session_get_mounted :
  session_get request srv
  = mounted_get (mkRetry 5 1 [403; 500; 502; 503; 504]) srv.
Proof. reflexivity. Qed.

Lemma mounted_get_not_forced (n : nat) (page : Z) :
  session_get request srv n page <> HTTPError 403.
Proof.
  rewrite session_get_mounted. unfold mounted_get.
  apply attempts_not_forced. simpl. tauto.
Qed.

Lemma session_get_forbidden (n : nat) (page : Z) :
  (forall k, exists items, srv n k page = Response 403 items) ->
  session_get request srv n page = Failure.
Proof.
  intros Hall. rewrite session_get_mounted. unfold mounted_get.
  apply (attempts_all_forced _ _ 403); [simpl; tauto|exact Hall].
Qed.

(** A cooldown in a log follows a request that raised [HTTPError] with
    status 403. *)
Lemma paced_cooldown_cause (log : list (event item)) :
  paced item log ->
  In (Sleep 60) log ->
  exists pre p post, log = pre ++ Get p (HTTPError 403) :: post.
Proof.
  induction 1 as [|p|p o Ht|p x items rest Hp IH|p o rest Hp IH];
    intros Hin.
  - contradiction.
  - destruct Hin as [E|[]]. discriminate.
  - destruct Hin as [E|[]]. discriminate.
  - destruct Hin as [E|[E|Hin]]; try discriminate.
    destruct (IH Hin) as (pre & q & post & ->).
    exists (Get p (Items (x :: items)) :: Sleep 1 :: pre), q, post.
    reflexivity.
  - exists [], p, (Sleep 60 :: Get p o :: rest). reflexivity.
Qed.

Lemma failure_breaks (session : fetcher item) (st : state item) :
  session (calls st) (page st) = Failure ->
  body session st = ([Get (page st) (session (calls st) (page st))], None).
Proof.
  intros Ho. unfold Fetch.body. cbv zeta. rewrite Ho. reflexivity.
Qed.

(** C2. On the session that [search_github] builds, status 403 is in
    the [status_forcelist] of the mounted [Retry], so a 403 that outlasts
    the retries leaves [session.get] as a [RetryError], never as an
    [HTTPError] with status 403.  Hence the branch of [fetch_results]
    that sleeps 60 and asks for the same page again is never taken: no
    run has a cooldown in its log, and a page that is answered 403 on
    every attempt ends the loop with the records accumulated so far
    after a single [session.get].  On a server with a first page of
    three items and 403 for the second, the run for a target of 50
    returns the three items without any cooldown. *)
Theorem exhausted_403_ends_the_loop (num_results : Z) :
  let session := session_get request srv in
  (forall n page, session n page <> HTTPError 403) /\
  (forall fuel r log,
      fetch_results session num_results fuel = Some (r, log) ->
      ~ In (Sleep 60) log) /\
  (forall log st,
      reaches session num_results init log st ->
      guard num_results st = true ->
      (forall k, exists items,
            srv (calls st) k (page st) = Response 403 items) ->
      (exists fuel,
          fetch_results session num_results fuel
          = Some (results st, log ++ [Get (page st) Failure])) /\
      (forall fuel r log',
          fetch_results session num_results fuel = Some (r, log') ->
          r = results st /\ log' = log ++ [Get (page st) Failure])) /\
  fetch_results
    (session_get (search_github "q" "stars" "desc" None 0 30 None)
                 forbidden_after_first_page) 50 2
  = Some ([1; 2; 3], [Get 1 (Items [1; 2; 3]); Sleep 1; Get 2 Failure]).
Proof.
  intros session. split; [|split; [|split]].
  - intros n page. apply mounted_get_not_forced.
  - intros fuel r log H Hin. unfold Fetch.fetch_results in H.
    destruct (Fetch.loop _ _ fuel init) as [[r0 log0]|] eqn:Hl;
      [|discriminate].
    injection H as _ Hlog. subst log0.
    pose proof (loop_paced _ _ _ _ _ _ Hl) as Hp.
    destruct (paced_cooldown_cause _ Hp Hin) as (pre & p & post & E).
    rewrite E in Hl.
    destruct (request_state _ _ _ _ _ _ _ _ _ Hl) as (st' & _ & _ & _ & Ho).
    symmetry in Ho. revert Ho. apply mounted_get_not_forced.
  - intros log st Hr Hg Hall.
    assert (Ho : session (calls st) (page st) = Failure)
      by (apply session_get_forbidden; exact Hall).
    pose proof (break_returns session num_results st log Hr Hg
                              (failure_breaks session st Ho)) as Hb.
    cbv zeta in Hb. rewrite Ho in Hb. exact Hb.
  - reflexivity.
Qed.

(** C9. On the session that [search_github] builds, [fetch_results]
    returns whatever the server does: a page that is answered 403
    indefinitely does not keep the loop on it, since the exhausted
    retries of the mounted [Retry] end [session.get] in a [RetryError]
    and the loop breaks.  On a server that answers every attempt with
    403, the run returns the empty list after a single [session.get]
    and no cooldown. *)
Theorem persistent_403_returns (num_results : Z) :
  let session := session_get request srv in
  (exists fuel r log,
      fetch_results session num_results fuel = Some (r, log)) /\
  (0 < num_results ->
   (forall n k page, exists items, srv n k page = Response 403 items) ->
   (exists fuel,
       fetch_results session num_results fuel
       = Some ([], [Get 1 Failure])) /\
   (forall fuel, fetch_results session num_results (S fuel) <> None)) /\
  (forall fuel,
      fetch_results
        (session_get (search_github "q" "stars" "desc" None 0 30 None)
                     forbidden) 1 (S fuel)
      = Some ([], [Get 1 Failure])).
Proof.
  intros session. split; [|split].
  - assert (Hans : eventually_answers session).
    { intros p n. exists 0%nat. apply mounted_get_not_forced. }
    destruct (loop_terminates session num_results Hans _ init (le_n _))
      as (fuel & [r log] & Hl).
    exists fuel, (slice_to num_results r), log.
    unfold Fetch.fetch_results. rewrite Hl. reflexivity.
  - intros Hn Hall.
    assert (Ho : session 0%nat 1 = Failure)
      by (apply session_get_forbidden; intros k; apply Hall).
    assert (Hone : forall fuel,
               fetch_results session num_results (S fuel)
               = Some ([], [Get 1 Failure])).
    { intros fuel. unfold Fetch.fetch_results.
      rewrite loop_unfold
        by (unfold Fetch.guard; simpl; apply Z.ltb_lt; exact Hn).
      rewrite (failure_breaks session init Ho). simpl. rewrite Ho.
      unfold slice_to. destruct (0 <=? num_results);
        rewrite firstn_nil; reflexivity. }
    split.
    + exists 1%nat. apply Hone.
    + intros fuel. rewrite Hone. discriminate.
  - intros fuel. reflexivity.
Qed.

End TransportFacts.

Section TransportScenarios.

Import Py Fetch Search Transport.

(** A first page of three items, then 403 on every attempt: the second
    [session.get] ends the run. *)
Lemma exhausted_403_ends_the_loop_witness :
  fetch_results
    (session_get (search_github "q" "stars" "desc" None 0 30 None)
                 forbidden_after_first_page) 50 2
  = Some ([1; 2; 3], [Get 1 (Items [1; 2; 3]); Sleep 1; Get 2 Failure]) /\
  ~ In (Sleep 60) [Get 1 (Items [1; 2; 3]); Sleep 1; Get 2 Failure].
Proof.
  destruct (exhausted_403_ends_the_loop
              "q" "stars" "desc" None 0 30 None
              forbidden_after_first_page 50)
    as (_ & Hno & _ & Hrun).
  split; [exact Hrun|exact (Hno _ _ _ Hrun)].
Defined.

(** 403 on every attempt of every request: one [session.get], the empty
    list. *)
Lemma persistent_403_returns_witness :
  0 < 1 /\
  (forall n k page, exists items : list Z,
        forbidden n k page = Response 403 items) /\
  exists fuel,
    fetch_results
      (session_get (search_github "q" "stars" "desc" None 0 30 None)
                   forbidden) 1 fuel
    = Some ([], [Get 1 Failure]).
Proof.
  assert (Hn : 0 < 1) by lia.
  assert (Hall : forall n k page, exists items : list Z,
               forbidden n k page = Response 403 items)
    by (intros n k page; exists []; reflexivity).
  split; [exact Hn|split; [exact Hall|]].
  destruct (persistent_403_returns
              "q" "stars" "desc" None 0 30 None forbidden 1)
    as (_ & H & _).
  destruct (H Hn Hall) as [Hex _]. exact Hex.
Defined.

End TransportScenarios.
